(** * go-ses: the request builder and the dispatcher of the SES client

    A shallow embedding of [ses.go].  Two revisions of the file are kept:

    - module [Legacy]: the date-signed revision (scheme [AWS3-HTTPS], the
      one with [authorizationHeader]), where [SendEmail] and
      [SendEmailHTML] inline the recipient loops and [sesPost] is a free
      function over [http.DefaultClient];
    - module [Current]: the SigV4 revision (the one with the [HTTPClient]
      field), where the loops live in [fillRecipients] and signing is
      delegated to the AWS SDK.

    Go values are modelled as follows: a [string], and a [[]byte] that is
    only converted with [string(...)], is a [String.string] (a sequence of
    8-bit characters); the raw message is a [list byte]; [url.Values] and
    [http.Header] are finite maps from strings to lists of strings; a slice
    of strings is an [option (list string)], [None] being the nil slice; an
    index out of range is a panic.  What a run does to the response body is
    kept as a list of events. *)

From Stdlib Require Import ZArith List.
From Stdlib.Strings Require Import Ascii String Byte.
From stdpp Require Import gmap strings list fin_maps pretty sorting.

Local Open Scope string_scope.
Local Open Scope list_scope.

(** ** Go slices and panics *)

(** A run of Go code either completes with a value or panics. *)
Inductive outcome (A : Type) : Type :=
| Done (a : A)
| Panic.
Arguments Done {A} a.
Arguments Panic {A}.

#[global] Instance outcome_ret : MRet outcome := fun _ a => Done a.

#[global] Instance outcome_bind : MBind outcome := fun _ _ k m =>
  match m with
  | Done a => k a
  | Panic => Panic
  end.

(** [[]string]: [None] is the nil slice, [Some l] a non-nil slice. *)
Definition slice := option (list string).

Definition elems (s : slice) : list string := default [] s.

(** [len(s)]: the length of a nil slice is 0. *)
Definition len (s : slice) : nat := length (elems s).

(** [s != nil] *)
Definition not_nil (s : slice) : bool :=
  match s with Some _ => true | None => false end.

(** [s[i]]: panics out of range. *)
Definition index (s : slice) (i : nat) : outcome string :=
  match elems s !! i with
  | Some x => Done x
  | None => Panic
  end.

(** ** [url.Values] *)

Module Values.

Abbreviation t := (gmap string (list string)).

(** [make(url.Values)] *)
Definition make : t := ∅.

(** [v.Add(key, value)]: [v[key] = append(v[key], value)]. *)
Definition Add (key value : string) (v : t) : t :=
  <[key := default [] (v !! key) ++ [value]]> v.

(** [v.Get(key)]: the first value of the key, or the empty string. *)
Definition Get (key : string) (v : t) : string :=
  match v !! key with
  | Some (x :: _) => x
  | _ => ""
  end.

End Values.

(** ** The recipient loops *)

(** [fmt.Sprintf("Destination.<Kind>Addresses.member.%d", n)] *)
Definition member_key (kind : string) (n : nat) : string :=
  "Destination." +:+ kind +:+ "Addresses.member." +:+ pretty n.

(** [for i := 0; i < len(xs); i++ { data.Add(Sprintf(".. %d", i+off), xs[i]) }]

    [n] is the number of iterations left, [len(xs) - i]: the loop test
    [i < len(xs)] is [n > 0].  [i + off] does not wrap: [off] is 1 or 11
    and a slice of strings is far shorter than the largest [int]. *)
Fixpoint members_from (kind : string) (off : nat) (xs : slice) (n i : nat)
    (data : Values.t) : outcome Values.t :=
  match n with
  | O => Done data
  | S n' =>
      x ← index xs i;
      members_from kind off xs n' (S i) (Values.Add (member_key kind (i + off)) x data)
  end.

Definition add_members (kind : string) (off : nat) (xs : slice) (data : Values.t)
    : outcome Values.t :=
  members_from kind off xs (len xs) 0 data.

(** ** [net/url]: query escaping and [Values.Encode] *)

Module URL.

Definition in_range (lo hi c : ascii) : bool :=
  (Ascii.leb lo c && Ascii.leb c hi)%bool.

(** [shouldEscape(c, encodeQueryComponent)]: letters, digits and
    [-], [_], [.], [~] are kept, every other byte is escaped. *)
Definition shouldEscape (c : ascii) : bool :=
  negb (in_range "a" "z" c || in_range "A" "Z" c || in_range "0" "9" c
        || Ascii.eqb c "-" || Ascii.eqb c "_" || Ascii.eqb c "."
        || Ascii.eqb c "~")%bool%char.

(** [upperhex[n]] for [n < 16] *)
Definition upperhex (n : N) : ascii :=
  default "0"%char (list_ascii_of_string "0123456789ABCDEF" !! N.to_nat n).

(** One byte of [escape(s, encodeQueryComponent)]: a space becomes [+],
    an escaped byte [%XX], [XX] being [c>>4] and [c&15] in upper hex. *)
Definition escape_byte (c : ascii) : string :=
  if Ascii.eqb c " " then "+"
  else if shouldEscape c then
    String "%" (String (upperhex (N.shiftr (N_of_ascii c) 4))
               (String (upperhex (N.land (N_of_ascii c) 15)) ""))
  else String c "".

Fixpoint QueryEscape (s : string) : string :=
  match s with
  | "" => ""
  | String c s' => escape_byte c +:+ QueryEscape s'
  end.

(** The inner loop of [Encode]: one [key=value] pair per value, an [&]
    before each pair when the buffer is not empty. *)
Definition write_pair (keyEscaped : string) (buf value : string) : string :=
  (if decide (String.length buf = 0) then buf else buf +:+ "&")
    +:+ keyEscaped +:+ "=" +:+ QueryEscape value.

Definition write_key (v : Values.t) (buf key : string) : string :=
  foldl (write_pair (QueryEscape key)) buf (default [] (v !! key)).

(** [Encode] collects the keys by ranging over the map (Go leaves the
    order of that iteration unspecified), sorts them and writes the pairs
    key by key.  [ks] is the order in which the iteration produced the
    keys. *)
Definition EncodeFrom (ks : list string) (v : Values.t) : string :=
  foldl (write_key v) "" (merge_sort String.le ks).

(** An iteration order of [v]: every key of [v] once. *)
Definition iteration_of (v : Values.t) (ks : list string) : Prop :=
  ks ≡ₚ (map_to_list v).*1.

(** [v.Encode()] at one fixed iteration order. *)
Definition Encode (v : Values.t) : string :=
  EncodeFrom (map_to_list v).*1 v.

(** *** Unescaping and [ParseQuery] *)

(** [ishex(c)] *)
Definition ishex (c : ascii) : bool :=
  (in_range "0" "9" c || in_range "a" "f" c || in_range "A" "F" c)%bool%char.

(** [unhex(c)] *)
Definition unhex (c : ascii) : N :=
  (if in_range "0" "9" c then N_of_ascii c - 48
   else if in_range "a" "f" c then N_of_ascii c - 97 + 10
   else if in_range "A" "F" c then N_of_ascii c - 65 + 10
   else 0)%N%char.

(** [s[:3]] when [s] is longer than three bytes, else [s]: the fragment an
    [EscapeError] reports. *)
Definition fragment (s : string) : string := String.substring 0 3 s.

(** [QueryUnescape]: [%XX] gives the byte [unhex(X)<<4 | unhex(X)], [+]
    a space, every other byte itself; a [%] that two hex digits do not
    follow is an [EscapeError] (on the right) holding the fragment.  Go
    checks the whole string before it builds the result; the first
    malformed [%] from the left is the one reported either way. *)
Fixpoint QueryUnescape (s : string) : string + string :=
  match s with
  | "" => inl ""
  | String c rest =>
      if Ascii.eqb c "%" then
        match rest with
        | String h (String l rest') =>
            if (ishex h && ishex l)%bool then
              match QueryUnescape rest' with
              | inl t => inl (String (ascii_of_N (N.lor (N.shiftl (unhex h) 4) (unhex l))) t)
              | inr e => inr e
              end
            else inr (fragment s)
        | _ => inr (fragment s)
        end
      else
        match QueryUnescape rest with
        | inl t => inl (String (if Ascii.eqb c "+" then " "%char else c) t)
        | inr e => inr e
        end
  end.

(** [strings.Cut(s, sep)] for a separator of one byte: the text before the
    first separator, the text after it, and whether there is one. *)
Fixpoint Cut (sep : ascii) (s : string) : string * string * bool :=
  match s with
  | "" => ("", "", false)
  | String c rest =>
      if Ascii.eqb c sep then ("", rest, true)
      else let '(before, after, found) := Cut sep rest in
           (String c before, after, found)
  end.

(** [strings.Contains(s, sep)] for a separator of one byte. *)
Fixpoint Contains (sep : ascii) (s : string) : bool :=
  match s with
  | "" => false
  | String c rest => (Ascii.eqb c sep || Contains sep rest)%bool
  end.

(** The errors of [ParseQuery]. *)
Inductive parse_error : Type :=
| SemicolonSeparator                 (* invalid semicolon separator in query *)
| EscapeError (frag : string).

(** The loop of [parseQuery]: one piece up to the next [&] per round.
    [fuel] bounds the rounds; the length of the query is enough, since every
    round of a non-empty query shortens it. *)
Fixpoint parseQuery (fuel : nat) (m : Values.t) (err : option parse_error)
    (query : string) : option (Values.t * option parse_error) :=
  if decide (query = "") then Some (m, err)
  else
    match fuel with
    | O => None
    | S fuel' =>
        let '(key, query, _) := Cut "&" query in
        if Contains ";" key then parseQuery fuel' m (Some SemicolonSeparator) query
        else if decide (key = "") then parseQuery fuel' m err query
        else
          let '(key, value, _) := Cut "=" key in
          match QueryUnescape key with
          | inr e =>
              parseQuery fuel' m (Some (default (EscapeError e) err)) query
          | inl key =>
              match QueryUnescape value with
              | inr e =>
                  parseQuery fuel' m (Some (default (EscapeError e) err)) query
              | inl value => parseQuery fuel' (Values.Add key value m) err query
              end
          end
    end.

(** [ParseQuery(query)]: the values parsed and the first error met. *)
Definition ParseQuery (query : string) : option (Values.t * option parse_error) :=
  parseQuery (String.length query) Values.make None query.

End URL.

(** ** [encoding/base64]: [StdEncoding] *)

Module Base64.

(** [encodeStd], the standard alphabet, and [StdPadding]. *)
Definition encodeStd : list ascii :=
  list_ascii_of_string
    "ABCDEFGHIJKLMNOPQRSTUVWXYZabcdefghijklmnopqrstuvwxyz0123456789+/".

Definition padChar : ascii := "="%char.

(** [enc.encode[i]] *)
Definition encode_char (i : N) : ascii :=
  default padChar (encodeStd !! N.to_nat i).

(** [enc.encode[val>>sh&0x3F]] *)
Definition sextet (val sh : N) : ascii :=
  encode_char (N.land (N.shiftr val sh) 63).

(** [EncodeToString]: three bytes give four characters; one or two
    left-over bytes give two or three characters and padding. *)
Fixpoint EncodeToString (src : list byte) : string :=
  match src with
  | [] => ""
  | [b0] =>
      let val := N.shiftl (Byte.to_N b0) 16 in
      String (sextet val 18) (String (sextet val 12)
        (String padChar (String padChar "")))
  | [b0; b1] =>
      let val := N.lor (N.shiftl (Byte.to_N b0) 16) (N.shiftl (Byte.to_N b1) 8) in
      String (sextet val 18) (String (sextet val 12) (String (sextet val 6)
        (String padChar "")))
  | b0 :: b1 :: b2 :: rest =>
      let val := N.lor (N.lor (N.shiftl (Byte.to_N b0) 16)
                              (N.shiftl (Byte.to_N b1) 8)) (Byte.to_N b2) in
      String (sextet val 18) (String (sextet val 12) (String (sextet val 6)
        (String (sextet val 0) (EncodeToString rest))))
  end.

(** The decode map of the alphabet: the position of a character in
    [encodeStd], if it has one. *)
Definition decode_char (c : ascii) : option N :=
  N.of_nat <$> (fst <$> list_find (fun x => x = c) encodeStd).

(** [byte(val >> sh)] *)
Definition octet (val sh : N) : option byte :=
  Byte.of_N (N.land (N.shiftr val sh) 255).

(** [DecodeString]: quanta of four characters; only the last quantum may
    end in one or two padding characters. *)
Fixpoint decode_quanta (s : list ascii) : option (list byte) :=
  match s with
  | [] => Some []
  | c0 :: c1 :: c2 :: c3 :: rest =>
      v0 ← decode_char c0;
      v1 ← decode_char c1;
      if decide (rest = [] ∧ c3 = padChar) then
        if decide (c2 = padChar) then
          let val := N.lor (N.shiftl v0 18) (N.shiftl v1 12) in
          b0 ← octet val 16;
          Some [b0]
        else
          v2 ← decode_char c2;
          let val := N.lor (N.lor (N.shiftl v0 18) (N.shiftl v1 12))
                           (N.shiftl v2 6) in
          b0 ← octet val 16;
          b1 ← octet val 8;
          Some [b0; b1]
      else
        v2 ← decode_char c2;
        v3 ← decode_char c3;
        let val := N.lor (N.lor (N.lor (N.shiftl v0 18) (N.shiftl v1 12))
                                (N.shiftl v2 6)) v3 in
        b0 ← octet val 16;
        b1 ← octet val 8;
        b2 ← octet val 0;
        tail ← decode_quanta rest;
        Some (b0 :: b1 :: b2 :: tail)
  | _ => None
  end.

Definition DecodeString (s : string) : option (list byte) :=
  decode_quanta (list_ascii_of_string s).

End Base64.

(** ** [net/http]: requests, responses, errors and the observable events *)

(** A Go [error] value, by its message. *)
Inductive error : Type := Err (msg : string).

Module HTTP.

Abbreviation Header := (gmap string (list string)).

(** [h.Set(key, value)] replaces the values of the key.  The keys used
    below are already in canonical MIME form. *)
Definition Header_Set (key value : string) (h : Header) : Header :=
  <[key := [value]]> h.

(** [h.Get(key)] *)
Definition Header_Get (key : string) (h : Header) : string :=
  match h !! key with
  | Some (x :: _) => x
  | _ => ""
  end.

(** An [*http.Request]: [Body] is [None] for a nil body, else the bytes
    the body reader yields. *)
Record Request : Type := mkRequest {
  Method : string;
  Url : string;
  Hdr : Header;
  Body : option string
}.

Definition set_header (key value : string) (r : Request) : Request :=
  {| Method := Method r; Url := Url r; Hdr := Header_Set key value (Hdr r);
     Body := Body r |}.

(** A response body: what [ioutil.ReadAll] returns for it, the bytes read
    and the error that stopped the read, if any. *)
Record ReadCloser : Type := mkBody {
  content : string;
  read_error : option error
}.

Definition ReadAll (b : ReadCloser) : string * option error :=
  (content b, read_error b).

Record Response : Type := mkResponse {
  StatusCode : Z;
  RespBody : ReadCloser
}.

Definition StatusOK : Z := 200.
Definition MethodPost : string := "POST".

(** What a run of [sesPost] does to the outside, in order. *)
Inductive event : Type :=
| Sent (req : Request)      (* the request handed to the transport *)
| ReadBody                  (* [ReadAll] on the response body *)
| ClosedBody.               (* [Close] on the response body *)

(** The result pair [(string, error)] of a send with its events. *)
Record run : Type := mkRun {
  result : string * option error;
  trace : list event
}.

(** [http.NewRequest(method, url, body)]: fails when the URL does not
    parse ([url_error] is [url.Parse]'s verdict), else a request with
    that method, URL and body and no header yet. *)
Definition NewRequest (url_error : string -> option error)
    (method url : string) (body : option string) : Request + error :=
  match url_error url with
  | Some e => inr e
  | None => inl {| Method := method; Url := url; Hdr := ∅; Body := body |}
  end.

End HTTP.

(** The layout of the [Date] header. *)
Definition date_layout : string := "Mon, 02 Jan 2006 15:04:05 -0700".

(** [fmt.Errorf("error code %d. response: %s", status, body)] *)
Definition status_error (status : Z) (body : string) : error :=
  Err ("error code " +:+ pretty status +:+ ". response: " +:+ body).

(** ** The date-signed revision *)

Module Legacy.

Import HTTP.

Record Config : Type := mkConfig {
  Endpoint : string;
  AccessKeyID : string;
  SecretAccessKey : string
}.

(** What the revision takes from outside the package. *)
Record World : Type := mkWorld {
  url_error : string -> option error;          (* [url.Parse] failing *)
  now : Z;                                      (* [time.Now().UTC()] *)
  Format : string -> Z -> string;               (* [Time.Format] *)
  hmac_sha256 : list byte -> list byte -> list byte;  (* key, message *)
  DefaultClient : Request -> Response + error   (* [http.DefaultClient.Do] *)
}.

(** The guarded loop [if xs != nil { for ... }]. *)
Definition guarded_members (kind : string) (off : nat) (xs : slice)
    (data : Values.t) : outcome Values.t :=
  if not_nil xs then add_members kind off xs data else Done data.

(** The parameters [SendEmail] builds before it posts them.  The loop
    over [to] formats [i+11]. *)
Definition SendEmail_params (c : Config) (from : string) (to cc bcc : slice)
    (subject body : string) : outcome Values.t :=
  let data := Values.make in
  let data := Values.Add "Action" "SendEmail" data in
  let data := Values.Add "Source" from data in
  data ← guarded_members "To" 11 to data;
  data ← guarded_members "Cc" 1 cc data;
  data ← guarded_members "Bcc" 1 bcc data;
  let data := Values.Add "Message.Subject.Data" subject data in
  let data := Values.Add "Message.Body.Text.Data" body data in
  let data := Values.Add "AWSAccessKeyId" (AccessKeyID c) data in
  Done data.

Definition SendEmailHTML_params (c : Config) (from : string) (to cc bcc : slice)
    (subject bodyText bodyHTML : string) : outcome Values.t :=
  let data := Values.make in
  let data := Values.Add "Action" "SendEmail" data in
  let data := Values.Add "Source" from data in
  data ← guarded_members "To" 1 to data;
  data ← guarded_members "Cc" 1 cc data;
  data ← guarded_members "Bcc" 1 bcc data;
  let data := Values.Add "Message.Subject.Data" subject data in
  let data := Values.Add "Message.Body.Text.Data" bodyText data in
  let data := Values.Add "Message.Body.Html.Data" bodyHTML data in
  let data := Values.Add "AWSAccessKeyId" (AccessKeyID c) data in
  Done data.

Definition SendRawEmail_params (c : Config) (raw : list byte) : Values.t :=
  let data := Values.make in
  let data := Values.Add "Action" "SendRawEmail" data in
  let data := Values.Add "RawMessage.Data" (Base64.EncodeToString raw) data in
  let data := Values.Add "AWSAccessKeyId" (AccessKeyID c) data in
  data.

(** [base64(HMAC-SHA256(secretAccessKey, date))] *)
Definition signature (w : World) (date secretAccessKey : string) : string :=
  Base64.EncodeToString
    (hmac_sha256 w (list_byte_of_string secretAccessKey) (list_byte_of_string date)).

Definition authorizationHeader (w : World) (date accessKeyID secretAccessKey : string)
    : list string :=
  let auth := "AWS3-HTTPS AWSAccessKeyId=" +:+ accessKeyID
              +:+ ", Algorithm=HmacSHA256, Signature="
              +:+ signature w date secretAccessKey in
  [auth].

(** [sesPost], first half: the request is made with the encoded
    parameters as its body, then the three headers are set.  The only
    failure is that of [http.NewRequest]. *)
Definition sesPost_request (w : World) (data : Values.t)
    (endpoint accessKeyID secretAccessKey : string) : Request + error :=
  match NewRequest (url_error w) "POST" endpoint (Some (URL.Encode data)) with
  | inr err => inr err
  | inl req =>
      let req := set_header "Content-Type" "application/x-www-form-urlencoded" req in
      let date := Format w date_layout (now w) in
      let req := set_header "Date" date req in
      let auth := "AWS3-HTTPS AWSAccessKeyId=" +:+ accessKeyID
                  +:+ ", Algorithm=HmacSHA256, Signature="
                  +:+ signature w date secretAccessKey in
      let req := set_header "X-Amzn-Authorization" auth req in
      inl req
  end.

(** [sesPost], second half: the request goes to [http.DefaultClient]; the
    body of the response is read, the read error dropped, and the close
    of the body deferred to the return. *)
Definition sesPost_dispatch (w : World) (req : Request) : run :=
  match DefaultClient w req with
  | inr err => mkRun ("", Some err) [Sent req]
  | inl r =>
      let resultBody := fst (ReadAll (RespBody r)) in
      let deferred := [ClosedBody] in
      if decide (StatusCode r ≠ StatusOK) then
        mkRun ("", Some (status_error (StatusCode r) resultBody))
              ([Sent req; ReadBody] ++ deferred)
      else
        mkRun (resultBody, None) ([Sent req; ReadBody] ++ deferred)
  end.

Definition sesPost (w : World) (data : Values.t)
    (endpoint accessKeyID secretAccessKey : string) : run :=
  match sesPost_request w data endpoint accessKeyID secretAccessKey with
  | inr err => mkRun ("", Some err) []
  | inl req => sesPost_dispatch w req
  end.

Definition SendEmail (w : World) (c : Config) (from : string) (to cc bcc : slice)
    (subject body : string) : outcome run :=
  data ← SendEmail_params c from to cc bcc subject body;
  Done (sesPost w data (Endpoint c) (AccessKeyID c) (SecretAccessKey c)).

Definition SendEmailHTML (w : World) (c : Config) (from : string) (to cc bcc : slice)
    (subject bodyText bodyHTML : string) : outcome run :=
  data ← SendEmailHTML_params c from to cc bcc subject bodyText bodyHTML;
  Done (sesPost w data (Endpoint c) (AccessKeyID c) (SecretAccessKey c)).

Definition SendRawEmail (w : World) (c : Config) (raw : list byte) : outcome run :=
  Done (sesPost w (SendRawEmail_params c raw) (Endpoint c) (AccessKeyID c)
                (SecretAccessKey c)).

(** *** [sesGet] *)

(** The [http.Request] literal of [sesGet]: its URL is nil when
    [url.Parse] failed, since the error of the parse is dropped. *)
Record GetRequest : Type := mkGetRequest {
  GClose : bool;
  GHeader : Header;
  GMethod : string;
  GProtoMajor : Z;
  GProtoMinor : Z;
  GURL : option string
}.

Inductive get_event : Type :=
| SentGet (req : GetRequest)
| ReadBodyGet
| ClosedBodyGet.

Record get_run : Type := mkGetRun {
  get_result : string * option error;
  get_trace : list get_event
}.

(** The world of [sesGet]: that of [sesPost], and the default client on a
    request literal. *)
Record GetWorld : Type := mkGetWorld {
  base : World;
  DefaultClientGet : GetRequest -> Response + error
}.

Definition sesGet (w : GetWorld) (data : Values.t)
    (endpoint accessKeyID secretAccessKey : string) : get_run :=
  let urlString := endpoint +:+ "?" +:+ URL.Encode data in
  let endpointURL :=
    match url_error (base w) urlString with
    | Some _ => None
    | None => Some urlString
    end in
  let headers : Header := ∅ in
  let date := Format (base w) date_layout (now (base w)) in
  let headers := <["Date" := [date]]> headers in
  let auth := "AWS3-HTTPS AWSAccessKeyId=" +:+ accessKeyID
              +:+ ", Algorithm=HmacSHA256, Signature="
              +:+ signature (base w) date secretAccessKey in
  let headers := <["X-Amzn-Authorization" := [auth]]> headers in
  let req := {| GClose := true; GHeader := headers; GMethod := "GET";
                GProtoMajor := 1; GProtoMinor := 1; GURL := endpointURL |} in
  match DefaultClientGet w req with
  | inr err => mkGetRun ("", Some err) [SentGet req]
  | inl r =>
      let resultBody := fst (ReadAll (RespBody r)) in
      let deferred := [ClosedBodyGet] in
      if decide (StatusCode r ≠ StatusOK) then
        mkGetRun ("", Some (status_error (StatusCode r) resultBody))
                 ([SentGet req; ReadBodyGet] ++ deferred)
      else
        mkGetRun (resultBody, None) ([SentGet req; ReadBodyGet] ++ deferred)
  end.

End Legacy.

(** ** The SigV4 revision *)

Module Current.

Import HTTP.

(** [httpInterface]: the one method [Do]. *)
Definition httpInterface : Type := Request -> Response + error.

Record Config : Type := mkConfig {
  Endpoint : string;
  Region : string;
  AccessKeyID : string;
  SecretAccessKey : string;
  HTTPClient : httpInterface
}.

(** [credentials.Value] of the static provider. *)
Record Credentials : Type := mkCredentials {
  cred_id : string;
  cred_secret : string
}.

(** [Signer.Sign(req, body, service, region, signTime)] of the AWS SDK: it
    changes the request in place and may fail. *)
Definition signer : Type :=
  Credentials -> Request -> string -> string -> string -> Z -> Request * option error.

Record World : Type := mkWorld {
  url_error : string -> option error;   (* [url.Parse] failing *)
  now : Z;                               (* [time.Now().UTC()] *)
  Format : string -> Z -> string;        (* [Time.Format] *)
  Sign : signer
}.

(** The guarded loop [if len(xs) > 0 { for ... }]. *)
Definition guarded_members (kind : string) (xs : slice) (data : Values.t)
    : outcome Values.t :=
  if decide (0 < len xs) then add_members kind 1 xs data else Done data.

Definition fillRecipients (from : string) (to cc bcc : slice) (data : Values.t)
    : outcome Values.t :=
  let data := Values.Add "Source" from data in
  data ← guarded_members "To" to data;
  data ← guarded_members "Cc" cc data;
  guarded_members "Bcc" bcc data.

Definition SendEmail_params (c : Config) (from : string) (to cc bcc : slice)
    (subject body : string) : outcome Values.t :=
  let data := Values.make in
  let data := Values.Add "Action" "SendEmail" data in
  data ← fillRecipients from to cc bcc data;
  let data := Values.Add "Message.Subject.Data" subject data in
  let data := Values.Add "Message.Body.Text.Data" body data in
  let data := Values.Add "AWSAccessKeyId" (AccessKeyID c) data in
  Done data.

Definition SendEmailHTML_params (c : Config) (from : string) (to cc bcc : slice)
    (subject bodyText bodyHTML : string) : outcome Values.t :=
  let data := Values.make in
  let data := Values.Add "Action" "SendEmail" data in
  data ← fillRecipients from to cc bcc data;
  let data := Values.Add "Message.Subject.Data" subject data in
  let data := Values.Add "Message.Body.Text.Data" bodyText data in
  let data := Values.Add "Message.Body.Html.Data" bodyHTML data in
  let data := Values.Add "AWSAccessKeyId" (AccessKeyID c) data in
  Done data.

Definition SendRawEmail_params (c : Config) (raw : list byte) : Values.t :=
  let data := Values.make in
  let data := Values.Add "Action" "SendRawEmail" data in
  let data := Values.Add "RawMessage.Data" (Base64.EncodeToString raw) data in
  let data := Values.Add "AWSAccessKeyId" (AccessKeyID c) data in
  data.

(** [sigv4]: the signer runs on static credentials made of the two keys
    of the configuration, for the service [email] and the region. *)
Definition sigv4 (w : World) (c : Config) (req : Request) (body : string)
    (timestamp : Z) : Request * option error :=
  let awsCredentials :=
    {| cred_id := AccessKeyID c; cred_secret := SecretAccessKey c |} in
  Sign w awsCredentials req body "email" (Region c) timestamp.

(** [sesPost], first half: the request is made without a body, the two
    headers are set, and the signer runs on the request, the encoded
    parameters and the instant the [Date] header was formatted from. *)
Definition sesPost_request (w : World) (c : Config) (data : Values.t)
    : Request + error :=
  match NewRequest (url_error w) MethodPost (Endpoint c) None with
  | inr err => inr err
  | inl req =>
      let req := set_header "Content-Type" "application/x-www-form-urlencoded" req in
      let now := now w in
      let req := set_header "Date" (Format w date_layout now) req in
      match sigv4 w c req (URL.Encode data) now with
      | (_, Some err) => inr err
      | (req, None) => inl req
      end
  end.

(** [sesPost], second half: the request goes to the configured client; a
    failed read of the body returns at once; after a read that succeeded
    the close of the body is deferred to the return. *)
Definition sesPost_dispatch (c : Config) (req : Request) : run :=
  match HTTPClient c req with
  | inr err => mkRun ("", Some err) [Sent req]
  | inl resp =>
      match ReadAll (RespBody resp) with
      | (_, Some err) => mkRun ("", Some err) [Sent req; ReadBody]
      | (resultBody, None) =>
          let deferred := [ClosedBody] in
          if decide (StatusCode resp ≠ StatusOK) then
            mkRun ("", Some (status_error (StatusCode resp) resultBody))
                  ([Sent req; ReadBody] ++ deferred)
          else
            mkRun (resultBody, None) ([Sent req; ReadBody] ++ deferred)
      end
  end.

Definition sesPost (w : World) (c : Config) (data : Values.t) : run :=
  match sesPost_request w c data with
  | inr err => mkRun ("", Some err) []
  | inl req => sesPost_dispatch c req
  end.

Definition SendEmail (w : World) (c : Config) (from : string) (to cc bcc : slice)
    (subject body : string) : outcome run :=
  data ← SendEmail_params c from to cc bcc subject body;
  Done (sesPost w c data).

Definition SendEmailHTML (w : World) (c : Config) (from : string) (to cc bcc : slice)
    (subject bodyText bodyHTML : string) : outcome run :=
  data ← SendEmailHTML_params c from to cc bcc subject bodyText bodyHTML;
  Done (sesPost w c data).

Definition SendRawEmail (w : World) (c : Config) (raw : list byte) : outcome run :=
  Done (sesPost w c (SendRawEmail_params c raw)).

End Current.

(** ** The first SigV4 revision *)

(** The revision between the two: it signs with the SDK like [Current], and
    like [Legacy] it posts through [http.DefaultClient] and drops the error
    of the read.  Its [sigv4] returns nothing, so the error of the signer is
    dropped too.  [fillRecipients] and the three builders have the text of
    [Current]. *)
Module Interim.

Import HTTP.

Record Config : Type := mkConfig {
  Endpoint : string;
  Region : string;
  AccessKeyID : string;
  SecretAccessKey : string
}.

Record World : Type := mkWorld {
  url_error : string -> option error;           (* [url.Parse] failing *)
  now : Z;                                       (* [time.Now().UTC()] *)
  Format : string -> Z -> string;                (* [Time.Format] *)
  Sign : Current.signer;                         (* [Signer.Sign] *)
  DefaultClient : Request -> Response + error    (* [http.DefaultClient.Do] *)
}.

Definition SendEmail_params (c : Config) (from : string) (to cc bcc : slice)
    (subject body : string) : outcome Values.t :=
  let data := Values.make in
  let data := Values.Add "Action" "SendEmail" data in
  data ← Current.fillRecipients from to cc bcc data;
  let data := Values.Add "Message.Subject.Data" subject data in
  let data := Values.Add "Message.Body.Text.Data" body data in
  let data := Values.Add "AWSAccessKeyId" (AccessKeyID c) data in
  Done data.

Definition SendEmailHTML_params (c : Config) (from : string) (to cc bcc : slice)
    (subject bodyText bodyHTML : string) : outcome Values.t :=
  let data := Values.make in
  let data := Values.Add "Action" "SendEmail" data in
  data ← Current.fillRecipients from to cc bcc data;
  let data := Values.Add "Message.Subject.Data" subject data in
  let data := Values.Add "Message.Body.Text.Data" bodyText data in
  let data := Values.Add "Message.Body.Html.Data" bodyHTML data in
  let data := Values.Add "AWSAccessKeyId" (AccessKeyID c) data in
  Done data.

Definition SendRawEmail_params (c : Config) (raw : list byte) : Values.t :=
  let data := Values.make in
  let data := Values.Add "Action" "SendRawEmail" data in
  let data := Values.Add "RawMessage.Data" (Base64.EncodeToString raw) data in
  let data := Values.Add "AWSAccessKeyId" (AccessKeyID c) data in
  data.

(** [sigv4]: the signer changes the request; what it returns is dropped. *)
Definition sigv4 (w : World) (c : Config) (req : Request) (body : string) (tm : Z)
    : Request :=
  let creds := {| Current.cred_id := AccessKeyID c;
                  Current.cred_secret := SecretAccessKey c |} in
  fst (Sign w creds req body "email" (Region c) tm).

Definition sesPost (w : World) (c : Config) (data : Values.t) : run :=
  match NewRequest (url_error w) "POST" (Endpoint c) None with
  | inr err => mkRun ("", Some err) []
  | inl req =>
      let req := set_header "Content-Type" "application/x-www-form-urlencoded" req in
      let now := now w in
      let date := Format w date_layout now in
      let req := set_header "Date" date req in
      let req := sigv4 w c req (URL.Encode data) now in
      match DefaultClient w req with
      | inr err => mkRun ("", Some err) [Sent req]
      | inl r =>
          (* the read error is dropped *)
          let resultBody := fst (ReadAll (RespBody r)) in
          (* [defer r.Body.Close()] *)
          let deferred := [ClosedBody] in
          if decide (StatusCode r ≠ StatusOK) then
            mkRun ("", Some (status_error (StatusCode r) resultBody))
                  ([Sent req; ReadBody] ++ deferred)
          else
            mkRun (resultBody, None) ([Sent req; ReadBody] ++ deferred)
      end
  end.

Definition SendEmail (w : World) (c : Config) (from : string) (to cc bcc : slice)
    (subject body : string) : outcome run :=
  data ← SendEmail_params c from to cc bcc subject body;
  Done (sesPost w c data).

Definition SendEmailHTML (w : World) (c : Config) (from : string) (to cc bcc : slice)
    (subject bodyText bodyHTML : string) : outcome run :=
  data ← SendEmailHTML_params c from to cc bcc subject bodyText bodyHTML;
  Done (sesPost w c data).

Definition SendRawEmail (w : World) (c : Config) (raw : list byte) : outcome run :=
  Done (sesPost w c (SendRawEmail_params c raw)).

End Interim.

(** ** The test double *)

(** The double quote character. *)
Definition dquote : string := String "034"%char "".

(** The body the double answers with, [{"error":"message failed"}]. *)
Definition mock_body : string :=
  "{" +:+ dquote +:+ "error" +:+ dquote +:+ ":" +:+ dquote +:+ "message failed"
  +:+ dquote +:+ "}".

(** [mockHTTPBadRequest.Do]: status 400 and the body above, with no error.
    Its branch for a nil request is not reached: [sesPost] calls [Do] on the
    request it made. *)
Definition mockHTTPBadRequest : Current.httpInterface :=
  fun _ => inl (HTTP.mkResponse 400 (HTTP.mkBody mock_body None)).

(** * Notions used in the statements *)

(** The fields one loop adds, for the elements [l] numbered from [start]. *)
Fixpoint add_all (kind : string) (start : nat) (l : list string) (data : Values.t)
    : Values.t :=
  match l with
  | [] => data
  | x :: l' => add_all kind (S start) l' (Values.Add (member_key kind start) x data)
  end.

(** What the three loops add after [Source], the loop over [to] numbering
    from [off_to]. *)
Definition recipient_fields (off_to : nat) (from : string) (to cc bcc : slice)
    (data : Values.t) : Values.t :=
  add_all "Bcc" 1 (elems bcc)
    (add_all "Cc" 1 (elems cc)
       (add_all "To" off_to (elems to) (Values.Add "Source" from data))).

(** The value a loop leaves under [member.<n>] of its kind when nothing
    else wrote that key: the element at position [n - start], if [n] is one
    of the numbers [start .. start + len - 1]. *)
Definition member_at (start : nat) (xs : slice) (n : nat) : option (list string) :=
  if decide (start <= n) then (fun x => [x]) <$> elems xs !! (n - start) else None.

(** The fields [member.<n>] of one kind are exactly those of the list,
    numbered from 1 in the order of the list. *)
Definition indexed_from_1 (kind : string) (xs : slice) (data : Values.t) : Prop :=
  forall n : nat,
    data !! member_key kind n
    = match n with
      | O => None
      | S i => (fun x => [x]) <$> elems xs !! i
      end.

(** [fillRecipients] without the three [if len(..) > 0] tests. *)
Definition fillRecipients_unguarded (from : string) (to cc bcc : slice)
    (data : Values.t) : outcome Values.t :=
  let data := Values.Add "Source" from data in
  data ← add_members "To" 1 to data;
  data ← add_members "Cc" 1 cc data;
  add_members "Bcc" 1 bcc data.

(** A nil slice read as the empty slice. *)
Definition nil_as_empty (s : slice) : slice := Some (elems s).

(** The 24-bit group of three bytes, [b0<<16 | b1<<8 | b2]. *)
Definition group3 (b0 b1 b2 : N) : N :=
  N.lor (N.lor (N.shiftl b0 16) (N.shiftl b1 8)) b2.

(** The 24-bit group of four sextets. *)
Definition group4 (v0 v1 v2 v3 : N) : N :=
  N.lor (N.lor (N.lor (N.shiftl v0 18) (N.shiftl v1 12)) (N.shiftl v2 6)) v3.

(** The sextet of [val] at bit [sh], [val>>sh&0x3F]. *)
Definition six (val sh : N) : N := N.land (N.shiftr val sh) 63.

(** The requests a run handed to the transport. *)
Definition sent_requests (r : HTTP.run) : list HTTP.Request :=
  omap (fun ev => match ev with HTTP.Sent q => Some q | _ => None end) (HTTP.trace r).

(** The response body was closed by the end of the run. *)
Definition body_closed (r : HTTP.run) : Prop := HTTP.ClosedBody ∈ HTTP.trace r.

(** An error comes with the empty string. *)
Definition error_means_empty (r : HTTP.run) : Prop :=
  forall e, snd (HTTP.result r) = Some e -> fst (HTTP.result r) = "".

(** What the dispatcher relies on from [Signer.Sign] of the AWS SDK when it
    succeeds: method, URL and the headers already set are kept, the body
    the signature was computed for is attached to the request, and the
    [Authorization] header has the SigV4 form, which starts with the
    algorithm and the access key of the credentials. *)
Definition sdk_signer (sign : Current.signer) : Prop :=
  forall creds req body service region t req',
    sign creds req body service region t = (req', None) ->
    HTTP.Method req' = HTTP.Method req
    /\ HTTP.Url req' = HTTP.Url req
    /\ HTTP.Body req' = Some body
    /\ HTTP.Hdr req' !! "Content-Type" = HTTP.Hdr req !! "Content-Type"
    /\ HTTP.Hdr req' !! "Date" = HTTP.Hdr req !! "Date"
    /\ exists scope,
         HTTP.Hdr req' !! "Authorization"
         = Some ["AWS4-HMAC-SHA256 Credential=" +:+ Current.cred_id creds +:+ "/" +:+ scope].

(** The request as [sesPost] has it just before signing. *)
Definition unsigned_request (w : Current.World) (c : Current.Config) : HTTP.Request :=
  HTTP.set_header "Date" (Current.Format w date_layout (Current.now w))
    (HTTP.set_header "Content-Type" "application/x-www-form-urlencoded"
       (HTTP.mkRequest HTTP.MethodPost (Current.Endpoint c) ∅ None)).

Definition form_urlencoded : string := "application/x-www-form-urlencoded".

(** [s] occurs in [t]. *)
Definition contains (s t : string) : Prop :=
  exists pre post, t = pre +:+ s +:+ post.

(** The encoded bodies of two runs agree: [run1] and [run2] are the
    parameters the two runs built, [ks1] and [ks2] the orders in which
    their maps were iterated. *)
Definition same_body (run1 run2 : outcome Values.t) : Prop :=
  forall d1 d2 ks1 ks2,
    run1 = Done d1 -> run2 = Done d2 ->
    URL.iteration_of d1 ks1 -> URL.iteration_of d2 ks2 ->
    URL.EncodeFrom ks1 d1 = URL.EncodeFrom ks2 d2.

(** ** A concrete world, for the scenarios *)

Definition example_date : string := "Thu, 01 Jan 1970 00:00:00 +0000".

(** A signer that does to the request what the contract says, with a
    constant in place of the signature. *)
Definition example_signer : Current.signer :=
  fun creds req body service region _ =>
    (HTTP.mkRequest (HTTP.Method req) (HTTP.Url req)
       (HTTP.Header_Set "Authorization"
          ("AWS4-HMAC-SHA256 Credential=" +:+ Current.cred_id creds +:+ "/"
           +:+ ("19700101/" +:+ region +:+ "/" +:+ service
                +:+ "/aws4_request, SignedHeaders=content-type;date;host;x-amz-date, Signature=00"))
          (HTTP.Hdr req))
       (Some body),
     None).

Definition example_world : Current.World :=
  Current.mkWorld (fun _ => None) 0 (fun _ _ => example_date) example_signer.

(** A client that answers every request with one response. *)
Definition answering (status : Z) (body : HTTP.ReadCloser) : Current.httpInterface :=
  fun _ => inl (HTTP.mkResponse status body).

Definition example_config (client : Current.httpInterface) : Current.Config :=
  Current.mkConfig "https://email.us-east-1.amazonaws.com" "us-east-1" "AKID"
    "secret" client.

Definition example_legacy_world (status : Z) (body : HTTP.ReadCloser) : Legacy.World :=
  Legacy.mkWorld (fun _ => None) 0 (fun _ _ => example_date)
    (fun key msg => key ++ msg) (fun _ => inl (HTTP.mkResponse status body)).

Definition example_params : Values.t :=
  Values.Add "Action" "SendRawEmail" Values.make.

(** Every key of the parameters has one value. *)
Definition single_valued (v : Values.t) : Prop :=
  forall k vs, v !! k = Some vs -> exists x, vs = [x].

(** Worlds and clients that fail, for the scenarios. *)
Definition failing_signer (e : error) : Current.signer :=
  fun _ req _ _ _ _ => (req, Some e).

Definition refusing (e : error) : Current.httpInterface := fun _ => inr e.

Definition unparsable_world (e : error) : Current.World :=
  Current.mkWorld (fun _ => Some e) 0 (fun _ _ => example_date) example_signer.

Definition unsigned_world (e : error) : Current.World :=
  Current.mkWorld (fun _ => None) 0 (fun _ _ => example_date) (failing_signer e).

(** The request of the first SigV4 revision before and after signing. *)
Definition interim_unsigned (w : Interim.World) (c : Interim.Config) : HTTP.Request :=
  HTTP.set_header "Date" (Interim.Format w date_layout (Interim.now w))
    (HTTP.set_header "Content-Type" "application/x-www-form-urlencoded"
       (HTTP.mkRequest "POST" (Interim.Endpoint c) ∅ None)).

Definition interim_signed (w : Interim.World) (c : Interim.Config) (data : Values.t)
    : HTTP.Request :=
  Interim.sigv4 w c (interim_unsigned w c) (URL.Encode data) (Interim.now w).

(** The world and the configuration of the first SigV4 revision that
    correspond to those of the later one: the configured client takes the
    place of the default client. *)
Definition interim_world (w : Current.World) (c : Current.Config) : Interim.World :=
  Interim.mkWorld (Current.url_error w) (Current.now w) (Current.Format w)
    (Current.Sign w) (Current.HTTPClient c).

Definition interim_config (c : Current.Config) : Interim.Config :=
  Interim.mkConfig (Current.Endpoint c) (Current.Region c) (Current.AccessKeyID c)
    (Current.SecretAccessKey c).

(** What the earlier revisions return for a response: the body as far as
    it was read when the status is 200, else the error of the status. *)
Definition result_by_status (resp : HTTP.Response) : string * option error :=
  if decide (HTTP.StatusCode resp = 200%Z)
  then (HTTP.content (HTTP.RespBody resp), None)
  else ("", Some (Err ("error code " +:+ pretty (HTTP.StatusCode resp)
                       +:+ ". response: " +:+ HTTP.content (HTTP.RespBody resp)))).

(** The requests a run of [sesGet] handed to the transport. *)
Definition sent_gets (r : Legacy.get_run) : list Legacy.GetRequest :=
  omap (fun ev => match ev with Legacy.SentGet q => Some q | _ => None end)
       (Legacy.get_trace r).

(** A world for [sesGet] in which no URL parses. *)
Definition example_get_world (status : Z) (body : HTTP.ReadCloser) : Legacy.GetWorld :=
  Legacy.mkGetWorld
    (Legacy.mkWorld (fun _ => Some (Err "invalid URL")) 0 (fun _ _ => example_date)
       (fun key msg => key ++ msg) (fun _ => inl (HTTP.mkResponse status body)))
    (fun _ => inl (HTTP.mkResponse status body)).

(** ** The encoded body, pair by pair *)

(** The check behind the round trip of one byte: what [escape_byte]
    writes for [c] is either one byte other than [%] that unescapes to [c],
    or [%] and two hex digits whose value is [c]. *)
Definition escape_ok (c : ascii) : bool :=
  match URL.escape_byte c with
  | String a "" =>
      negb (Ascii.eqb a "%")
      && Ascii.eqb (if Ascii.eqb a "+" then " "%char else a) c
  | String a (String h (String l "")) =>
      Ascii.eqb a "%" && URL.ishex h && URL.ishex l
      && Ascii.eqb (ascii_of_N (N.lor (N.shiftl (URL.unhex h) 4) (URL.unhex l))) c
  | _ => false
  end%bool.

(** None of the bytes [&], [=] and [;] that structure a query. *)
Definition separator_free (s : string) : bool :=
  negb (URL.Contains "&" s || URL.Contains "=" s || URL.Contains ";" s)%bool.

(** The pairs of [v] in the order of the keys [ks], the values of a key in
    their order. *)
Definition pairs (v : Values.t) (ks : list string) : list (string * string) :=
  k ← ks; (fun x => (k, x)) <$> default [] (v !! k).

(** One pair on the wire. *)
Definition pair_string (p : string * string) : string :=
  URL.QueryEscape p.1 +:+ "=" +:+ URL.QueryEscape p.2.

(** One round of the inner loop of [Encode], on a pair. *)
Definition write1 (buf : string) (p : string * string) : string :=
  URL.write_pair (URL.QueryEscape p.1) buf p.2.

(** Strings joined with [&]. *)
Fixpoint join_amp (l : list string) : string :=
  match l with
  | [] => ""
  | [p] => p
  | p :: l' => p +:+ "&" +:+ join_amp l'
  end.



(** * Properties *)

(** ** The recipient loops as a list of [Add]s *)

Lemma index_lookup (xs : slice) (i : nat) (x : string) :
  elems xs !! i = Some x -> index xs i = Done x.
Proof. unfold index. intros ->. reflexivity. Qed.

Lemma members_from_add_all kind off (xs : slice) n i data :
  i + n = len xs ->
  members_from kind off xs n i data
  = Done (add_all kind (i + off) (drop i (elems xs)) data).
Proof.
  revert i data. induction n as [|n IH]; intros i data Hlen; simpl.
  - rewrite drop_ge by (unfold len in Hlen; lia). reflexivity.
  - destruct (lookup_lt_is_Some_2 (elems xs) i) as [x Hx].
    { unfold len in Hlen. lia. }
    rewrite (index_lookup _ _ _ Hx). simpl.
    rewrite (drop_S _ _ _ Hx). simpl.
    rewrite IH by lia. reflexivity.
Qed.

Lemma add_members_add_all kind off (xs : slice) data :
  add_members kind off xs data = Done (add_all kind off (elems xs) data).
Proof.
  unfold add_members. rewrite members_from_add_all by reflexivity.
  rewrite drop_0. reflexivity.
Qed.

Lemma member_key_inj kind : Inj (=) (=) (member_key kind).
Proof.
  intros i j H. unfold member_key in H.
  repeat apply String.app_inj in H.
  by apply (inj pretty) in H.
Qed.

Lemma lookup_Add_eq key value (v : Values.t) :
  Values.Add key value v !! key = Some (default [] (v !! key) ++ [value]).
Proof. unfold Values.Add. apply lookup_insert_eq. Qed.

Lemma lookup_Add_ne key value (v : Values.t) k :
  key <> k -> Values.Add key value v !! k = v !! k.
Proof. unfold Values.Add. apply lookup_insert_ne. Qed.

Lemma lookup_add_all_miss kind start l data k :
  (forall j, j < length l -> k <> member_key kind (start + j)) ->
  add_all kind start l data !! k = data !! k.
Proof.
  revert start data. induction l as [|x l IH]; intros start data Hk; simpl.
  - reflexivity.
  - rewrite IH.
    + apply lookup_Add_ne. intros <-. apply (Hk 0); [simpl; lia|].
      by rewrite Nat.add_0_r.
    + intros j Hj. replace (S start + j) with (start + S j) by lia.
      apply Hk. simpl. lia.
Qed.

Lemma lookup_add_all_hit kind start l data j x :
  l !! j = Some x ->
  add_all kind start l data !! member_key kind (start + j)
  = Some (default [] (data !! member_key kind (start + j)) ++ [x]).
Proof.
  revert start data j. induction l as [|y l IH]; intros start data j Hj.
  - discriminate.
  - destruct j as [|j]; simpl in *.
    + injection Hj as ->. rewrite Nat.add_0_r.
      rewrite lookup_add_all_miss; [apply lookup_Add_eq|].
      intros j _ H. apply member_key_inj in H. lia.
    + replace (start + S j) with (S start + j) by lia.
      rewrite (IH _ _ _ Hj). rewrite lookup_Add_ne; [reflexivity|].
      intros H. apply member_key_inj in H. lia.
Qed.

(** The fields of one kind after its loop: numbered from [start], in the
    order of the list, appended to what the key held before. *)
Lemma lookup_add_all kind start l data n :
  add_all kind start l data !! member_key kind n
  = match l !! (n - start) with
    | Some x =>
        if decide (start <= n)
        then Some (default [] (data !! member_key kind n) ++ [x])
        else data !! member_key kind n
    | None => data !! member_key kind n
    end.
Proof.
  destruct (decide (start <= n)) as [Hle|Hlt].
  - destruct (l !! (n - start)) as [x|] eqn:Hx.
    + pose proof (lookup_add_all_hit kind start l data _ _ Hx) as H.
      replace (start + (n - start)) with n in H by lia. exact H.
    + apply lookup_add_all_miss. intros j Hj H. apply member_key_inj in H.
      apply lookup_ge_None in Hx. lia.
  - assert (add_all kind start l data !! member_key kind n
            = data !! member_key kind n) as ->.
    { apply lookup_add_all_miss. intros j Hj H. apply member_key_inj in H. lia. }
    by destruct (l !! (n - start)).
Qed.

(** Keys are told apart by their text. *)
Ltac key_neq :=
  let H := fresh in
  unfold member_key; intros H;
  first [ discriminate H
        | apply String.app_inj in H; discriminate H ].

Lemma lookup_add_all_fresh kind start xs data n :
  data !! member_key kind n = None ->
  add_all kind start (elems xs) data !! member_key kind n = member_at start xs n.
Proof.
  intros Hd. rewrite lookup_add_all, Hd. unfold member_at.
  destruct (elems xs !! (n - start)); case_decide; reflexivity.
Qed.

Section recipient_fields.
Context (off_to : nat) (from : string) (to cc bcc : slice) (data : Values.t).
Context (Hfresh : forall kind n, data !! member_key kind n = None).

Let fields := recipient_fields off_to from to cc bcc data.

Lemma lookup_recipient_To n :
  fields !! member_key "To" n = member_at off_to to n.
Proof.
  subst fields. unfold recipient_fields.
  rewrite !lookup_add_all_miss by (intros; key_neq).
  apply lookup_add_all_fresh. rewrite lookup_Add_ne by key_neq. apply Hfresh.
Qed.

Lemma lookup_recipient_Cc n :
  fields !! member_key "Cc" n = member_at 1 cc n.
Proof.
  subst fields. unfold recipient_fields.
  rewrite lookup_add_all_miss by (intros; key_neq).
  apply lookup_add_all_fresh.
  rewrite lookup_add_all_miss by (intros; key_neq).
  rewrite lookup_Add_ne by key_neq. apply Hfresh.
Qed.

Lemma lookup_recipient_Bcc n :
  fields !! member_key "Bcc" n = member_at 1 bcc n.
Proof.
  subst fields. unfold recipient_fields.
  apply lookup_add_all_fresh.
  rewrite !lookup_add_all_miss by (intros; key_neq).
  rewrite lookup_Add_ne by key_neq. apply Hfresh.
Qed.

Lemma lookup_recipient_other k :
  (forall kind n, k <> member_key kind n) ->
  fields !! k = Values.Add "Source" from data !! k.
Proof.
  intros Hk. subst fields. unfold recipient_fields.
  rewrite !lookup_add_all_miss by (intros; apply Hk). reflexivity.
Qed.
End recipient_fields.

Lemma member_at_1 xs n :
  member_at 1 xs n
  = match n with
    | O => None
    | S i => (fun x => [x]) <$> elems xs !! i
    end.
Proof.
  unfold member_at. destruct n as [|i]; simpl.
  - reflexivity.
  - rewrite Nat.sub_0_r. reflexivity.
Qed.

(** ** Closed forms of the builders *)

Lemma current_guarded_members kind xs data :
  Current.guarded_members kind xs data = Done (add_all kind 1 (elems xs) data).
Proof.
  unfold Current.guarded_members. case_decide as Hlen.
  - apply add_members_add_all.
  - unfold len in Hlen. destruct (elems xs); [reflexivity | simpl in Hlen; lia].
Qed.

Lemma current_fillRecipients from to cc bcc data :
  Current.fillRecipients from to cc bcc data
  = Done (recipient_fields 1 from to cc bcc data).
Proof.
  unfold Current.fillRecipients, recipient_fields.
  rewrite !current_guarded_members. simpl.
  rewrite !current_guarded_members. simpl.
  apply current_guarded_members.
Qed.

Lemma legacy_guarded_members kind off xs data :
  Legacy.guarded_members kind off xs data = Done (add_all kind off (elems xs) data).
Proof.
  unfold Legacy.guarded_members. destruct xs as [l|]; simpl.
  - apply add_members_add_all.
  - reflexivity.
Qed.

Lemma current_SendEmail_params c from to cc bcc subject body :
  Current.SendEmail_params c from to cc bcc subject body
  = Done (Values.Add "AWSAccessKeyId" (Current.AccessKeyID c)
           (Values.Add "Message.Body.Text.Data" body
             (Values.Add "Message.Subject.Data" subject
               (recipient_fields 1 from to cc bcc
                  (Values.Add "Action" "SendEmail" Values.make))))).
Proof.
  unfold Current.SendEmail_params. rewrite current_fillRecipients. reflexivity.
Qed.

Lemma current_SendEmailHTML_params c from to cc bcc subject bodyText bodyHTML :
  Current.SendEmailHTML_params c from to cc bcc subject bodyText bodyHTML
  = Done (Values.Add "AWSAccessKeyId" (Current.AccessKeyID c)
           (Values.Add "Message.Body.Html.Data" bodyHTML
             (Values.Add "Message.Body.Text.Data" bodyText
               (Values.Add "Message.Subject.Data" subject
                 (recipient_fields 1 from to cc bcc
                    (Values.Add "Action" "SendEmail" Values.make)))))).
Proof.
  unfold Current.SendEmailHTML_params. rewrite current_fillRecipients. reflexivity.
Qed.

Lemma legacy_SendEmail_params c from to cc bcc subject body :
  Legacy.SendEmail_params c from to cc bcc subject body
  = Done (Values.Add "AWSAccessKeyId" (Legacy.AccessKeyID c)
           (Values.Add "Message.Body.Text.Data" body
             (Values.Add "Message.Subject.Data" subject
               (recipient_fields 11 from to cc bcc
                  (Values.Add "Action" "SendEmail" Values.make))))).
Proof.
  unfold Legacy.SendEmail_params, recipient_fields.
  rewrite !legacy_guarded_members. simpl.
  rewrite !legacy_guarded_members. simpl.
  rewrite !legacy_guarded_members. reflexivity.
Qed.

Lemma legacy_SendEmailHTML_params c from to cc bcc subject bodyText bodyHTML :
  Legacy.SendEmailHTML_params c from to cc bcc subject bodyText bodyHTML
  = Done (Values.Add "AWSAccessKeyId" (Legacy.AccessKeyID c)
           (Values.Add "Message.Body.Html.Data" bodyHTML
             (Values.Add "Message.Body.Text.Data" bodyText
               (Values.Add "Message.Subject.Data" subject
                 (recipient_fields 1 from to cc bcc
                    (Values.Add "Action" "SendEmail" Values.make)))))).
Proof.
  unfold Legacy.SendEmailHTML_params, recipient_fields.
  rewrite !legacy_guarded_members. simpl.
  rewrite !legacy_guarded_members. simpl.
  rewrite !legacy_guarded_members. reflexivity.
Qed.

Lemma action_fresh (kind : string) (n : nat) :
  Values.Add "Action" "SendEmail" Values.make !! member_key kind n = None.
Proof. rewrite lookup_Add_ne by key_neq. apply lookup_empty. Qed.

(** Looking a recipient key up in the finished parameters: the fields
    written after the loops have other names. *)
Ltac through_tail :=
  rewrite ?lookup_Add_ne by key_neq.

Lemma current_params_indexed c from to cc bcc subject body data :
  Current.SendEmail_params c from to cc bcc subject body = Done data ->
  indexed_from_1 "To" to data /\ indexed_from_1 "Cc" cc data
  /\ indexed_from_1 "Bcc" bcc data.
Proof.
  rewrite current_SendEmail_params. intros [= <-].
  repeat split; intros n; through_tail; rewrite <- member_at_1.
  - apply lookup_recipient_To, action_fresh.
  - apply lookup_recipient_Cc, action_fresh.
  - apply lookup_recipient_Bcc, action_fresh.
Qed.

Lemma current_html_params_indexed c from to cc bcc subject bodyText bodyHTML data :
  Current.SendEmailHTML_params c from to cc bcc subject bodyText bodyHTML = Done data ->
  indexed_from_1 "To" to data /\ indexed_from_1 "Cc" cc data
  /\ indexed_from_1 "Bcc" bcc data.
Proof.
  rewrite current_SendEmailHTML_params. intros [= <-].
  repeat split; intros n; through_tail; rewrite <- member_at_1.
  - apply lookup_recipient_To, action_fresh.
  - apply lookup_recipient_Cc, action_fresh.
  - apply lookup_recipient_Bcc, action_fresh.
Qed.

Lemma legacy_html_params_indexed c from to cc bcc subject bodyText bodyHTML data :
  Legacy.SendEmailHTML_params c from to cc bcc subject bodyText bodyHTML = Done data ->
  indexed_from_1 "To" to data /\ indexed_from_1 "Cc" cc data
  /\ indexed_from_1 "Bcc" bcc data.
Proof.
  rewrite legacy_SendEmailHTML_params. intros [= <-].
  repeat split; intros n; through_tail; rewrite <- member_at_1.
  - apply lookup_recipient_To, action_fresh.
  - apply lookup_recipient_Cc, action_fresh.
  - apply lookup_recipient_Bcc, action_fresh.
Qed.

(** In the date-signed [SendEmail] the fields of [to] are numbered from 11;
    those of [cc] and [bcc] from 1. *)
Lemma legacy_params_numbering c from to cc bcc subject body data :
  Legacy.SendEmail_params c from to cc bcc subject body = Done data ->
  (forall n, data !! member_key "To" n = member_at 11 to n)
  /\ indexed_from_1 "Cc" cc data /\ indexed_from_1 "Bcc" bcc data.
Proof.
  rewrite legacy_SendEmail_params. intros [= <-].
  repeat split; intros n; through_tail; rewrite <- ?member_at_1.
  - apply lookup_recipient_To, action_fresh.
  - apply lookup_recipient_Cc, action_fresh.
  - apply lookup_recipient_Bcc, action_fresh.
Qed.

(** ** Recipient numbering *)

(** C1 (the date-signed [SendEmail]): with the one recipient
    [b@x.com] the parameters hold no field
    [Destination.ToAddresses.member.1]; the address is filed under
    [member.11], as the encoded body shows. *)
Theorem legacy_SendEmail_numbers_to_from_11 :
  exists data,
    Legacy.SendEmail_params (Legacy.mkConfig "https://email.example" "AKID" "secret")
      "a@x.com" (Some ["b@x.com"]) None None "hello" "text" = Done data
    /\ data !! "Destination.ToAddresses.member.1" = None
    /\ data !! "Destination.ToAddresses.member.11" = Some ["b@x.com"]
    /\ URL.Encode data
       = "AWSAccessKeyId=AKID&Action=SendEmail&Destination.ToAddresses.member.11=b%40x.com&Message.Body.Text.Data=text&Message.Subject.Data=hello&Source=a%40x.com".
Proof.
  eexists. split; [reflexivity|].
  repeat split; vm_compute; reflexivity.
Qed.

(** The plain send to one recipient, as the SigV4 revision encodes it. *)
Example current_SendEmail_one_recipient :
  exists data,
    Current.SendEmail_params (example_config (answering 200 (HTTP.mkBody "ok" None)))
      "a@x.com" (Some ["b@x.com"]) None None "hello" "text" = Done data
    /\ URL.Encode data
       = "AWSAccessKeyId=AKID&Action=SendEmail&Destination.ToAddresses.member.1=b%40x.com&Message.Body.Text.Data=text&Message.Subject.Data=hello&Source=a%40x.com".
Proof. eexists. split; [reflexivity|]. vm_compute. reflexivity. Qed.

(** ** Fields of the two [SendEmail] builders *)

Ltac lookup_field :=
  repeat first
    [ rewrite lookup_Add_eq
    | rewrite lookup_Add_ne by key_neq
    | rewrite lookup_recipient_other by (intros; key_neq)
    | rewrite lookup_empty ];
  try reflexivity.

(** C6: [SendEmailHTML] sets [Message.Body.Text.Data] to the text body and
    [Message.Body.Html.Data] to the HTML body; [SendEmail] sets
    [Message.Body.Text.Data] to the body and has no field
    [Message.Body.Html.Data]; both set [Action] to [SendEmail], [Source] to
    the sender and [Message.Subject.Data] to the subject. *)
Theorem SendEmail_and_SendEmailHTML_fields
    (c : Current.Config) (from : string) (to cc bcc : slice)
    (subject body bodyText bodyHTML : string) :
  (exists data,
      Current.SendEmail_params c from to cc bcc subject body = Done data
      /\ data !! "Action" = Some ["SendEmail"]
      /\ data !! "Source" = Some [from]
      /\ data !! "Message.Subject.Data" = Some [subject]
      /\ data !! "Message.Body.Text.Data" = Some [body]
      /\ data !! "Message.Body.Html.Data" = None)
  /\ (exists data,
      Current.SendEmailHTML_params c from to cc bcc subject bodyText bodyHTML = Done data
      /\ data !! "Action" = Some ["SendEmail"]
      /\ data !! "Source" = Some [from]
      /\ data !! "Message.Subject.Data" = Some [subject]
      /\ data !! "Message.Body.Text.Data" = Some [bodyText]
      /\ data !! "Message.Body.Html.Data" = Some [bodyHTML]).
Proof.
  split.
  - eexists. split; [apply current_SendEmail_params|].
    repeat split; lookup_field.
  - eexists. split; [apply current_SendEmailHTML_params|].
    repeat split; lookup_field.
Qed.

(** ** The builders are total *)

Lemma fillRecipients_guards_redundant from to cc bcc data :
  Current.fillRecipients from to cc bcc data
  = fillRecipients_unguarded from to cc bcc data.
Proof.
  rewrite current_fillRecipients.
  unfold fillRecipients_unguarded, recipient_fields.
  rewrite !add_members_add_all. simpl.
  rewrite !add_members_add_all. simpl.
  rewrite !add_members_add_all. reflexivity.
Qed.

(** C10: for all inputs, nil slices included, the builders of both
    revisions complete with a set of parameters (no panic, and they have no
    error result); a nil list gives the parameters of the empty list; and
    [fillRecipients] does what it would do without its [len > 0] tests. *)
Theorem builders_total_and_nil_is_empty
    (c : Current.Config) (c' : Legacy.Config) (from : string) (to cc bcc : slice)
    (subject body bodyText bodyHTML : string) (data0 : Values.t) :
  ((exists data, Current.SendEmail_params c from to cc bcc subject body = Done data)
   /\ (exists data, Current.SendEmailHTML_params c from to cc bcc subject bodyText
                      bodyHTML = Done data)
   /\ (exists data, Legacy.SendEmail_params c' from to cc bcc subject body = Done data)
   /\ (exists data, Legacy.SendEmailHTML_params c' from to cc bcc subject bodyText
                      bodyHTML = Done data))
  /\ (Current.SendEmail_params c from to cc bcc subject body
      = Current.SendEmail_params c from (nil_as_empty to) (nil_as_empty cc)
          (nil_as_empty bcc) subject body
      /\ Current.SendEmailHTML_params c from to cc bcc subject bodyText bodyHTML
         = Current.SendEmailHTML_params c from (nil_as_empty to) (nil_as_empty cc)
             (nil_as_empty bcc) subject bodyText bodyHTML
      /\ Legacy.SendEmail_params c' from to cc bcc subject body
         = Legacy.SendEmail_params c' from (nil_as_empty to) (nil_as_empty cc)
             (nil_as_empty bcc) subject body
      /\ Legacy.SendEmailHTML_params c' from to cc bcc subject bodyText bodyHTML
         = Legacy.SendEmailHTML_params c' from (nil_as_empty to) (nil_as_empty cc)
             (nil_as_empty bcc) subject bodyText bodyHTML)
  /\ Current.fillRecipients from to cc bcc data0
     = fillRecipients_unguarded from to cc bcc data0.
Proof.
  rewrite !current_SendEmail_params, !current_SendEmailHTML_params,
    !legacy_SendEmail_params, !legacy_SendEmailHTML_params.
  split; [|split].
  - repeat split; eexists; reflexivity.
  - repeat split; reflexivity.
  - apply fillRecipients_guards_redundant.
Qed.

(** ** Base64 round trip *)

(** Linear arithmetic with division and remainder by constants. *)
Ltac div_lia := zify; Z.to_euclidean_division_equations; lia.

Section base64_bits.
Local Open Scope N_scope.

Lemma lor_disjoint x y k : x mod 2 ^ k = 0 -> y < 2 ^ k -> N.lor x y = x + y.
Proof.
  intros Hx Hy.
  assert (N.land x y = 0) as Hland.
  { apply N.bits_inj_0. intros n. rewrite N.land_spec.
    destruct (decide (n < k)) as [Hn|Hn].
    - rewrite (N.div_mod x (2 ^ k)) by (apply N.pow_nonzero; lia).
      rewrite Hx, N.add_0_r, N.mul_comm, N.mul_pow2_bits_low by exact Hn.
      reflexivity.
    - rewrite <- (N.mod_small y (2 ^ k)) by exact Hy.
      rewrite N.mod_pow2_bits_high by lia. apply andb_false_r. }
  rewrite <- N.lxor_lor by exact Hland.
  symmetry. apply N.add_nocarry_lxor. exact Hland.
Qed.

Lemma land_63 a : N.land a 63 = a mod 64.
Proof. change 63 with (N.ones 6). apply N.land_ones. Qed.

Lemma land_255 a : N.land a 255 = a mod 256.
Proof. change 255 with (N.ones 8). apply N.land_ones. Qed.

Lemma shiftl_mul a (n k : N) : 2 ^ n = k -> N.shiftl a n = a * k.
Proof. intros <-. apply N.shiftl_mul_pow2. Qed.

Lemma shiftr_div a (n k : N) : 2 ^ n = k -> N.shiftr a n = a / k.
Proof. intros <-. apply N.shiftr_div_pow2. Qed.

(** Shifts and masks by the constants of the codec, as arithmetic. *)
Ltac to_arith :=
  rewrite ?land_63, ?land_255,
    ?(shiftl_mul _ 18 262144), ?(shiftl_mul _ 16 65536), ?(shiftl_mul _ 12 4096),
    ?(shiftl_mul _ 8 256), ?(shiftl_mul _ 6 64),
    ?(shiftr_div _ 18 262144), ?(shiftr_div _ 16 65536), ?(shiftr_div _ 12 4096),
    ?(shiftr_div _ 8 256), ?(shiftr_div _ 6 64), ?(shiftr_div _ 0 1)
    by reflexivity.

Lemma six_lt val sh : six val sh < 64.
Proof. unfold six. rewrite land_63. apply N.mod_lt. lia. Qed.

Lemma group3_arith b0 b1 b2 :
  b1 < 256 -> b2 < 256 -> group3 b0 b1 b2 = b0 * 65536 + b1 * 256 + b2.
Proof.
  intros H1 H2. unfold group3. to_arith.
  rewrite (lor_disjoint (b0 * 65536) (b1 * 256) 16)
    by (change (2 ^ 16) with 65536; div_lia).
  rewrite (lor_disjoint _ b2 8) by (change (2 ^ 8) with 256; div_lia).
  reflexivity.
Qed.

Lemma group4_arith v0 v1 v2 v3 :
  v1 < 64 -> v2 < 64 -> v3 < 64 ->
  group4 v0 v1 v2 v3 = v0 * 262144 + v1 * 4096 + v2 * 64 + v3.
Proof.
  intros H1 H2 H3. unfold group4. to_arith.
  rewrite (lor_disjoint (v0 * 262144) (v1 * 4096) 18)
    by (change (2 ^ 18) with 262144; div_lia).
  rewrite (lor_disjoint _ (v2 * 64) 12) by (change (2 ^ 12) with 4096; div_lia).
  rewrite (lor_disjoint _ v3 6) by (change (2 ^ 6) with 64; div_lia).
  reflexivity.
Qed.

(** Splitting a 24-bit group into sextets and joining them again gives
    the group back. *)
Lemma group4_six val :
  val < 16777216 ->
  group4 (six val 18) (six val 12) (six val 6) (six val 0) = val.
Proof.
  intros Hval. rewrite group4_arith by apply six_lt.
  unfold six. to_arith. div_lia.
Qed.

Lemma octets_group3 b0 b1 b2 :
  b0 < 256 -> b1 < 256 -> b2 < 256 ->
  N.land (N.shiftr (group3 b0 b1 b2) 16) 255 = b0
  /\ N.land (N.shiftr (group3 b0 b1 b2) 8) 255 = b1
  /\ N.land (N.shiftr (group3 b0 b1 b2) 0) 255 = b2.
Proof.
  intros H0 H1 H2. rewrite group3_arith by assumption. to_arith. div_lia.
Qed.

Lemma group3_lt b0 b1 b2 :
  b0 < 256 -> b1 < 256 -> b2 < 256 -> group3 b0 b1 b2 < 16777216.
Proof. intros H0 H1 H2. rewrite group3_arith by assumption. lia. Qed.

End base64_bits.

Section base64_round_trip.
Import Base64.
Local Open Scope N_scope.

(** The alphabet has 64 different characters, none of them the padding
    character: checked position by position. *)
Lemma alphabet_checked :
  Forall (fun i => decode_char (encode_char i) = Some i /\ encode_char i <> padChar)
         (N.of_nat <$> seq 0 64).
Proof. apply (bool_decide_unpack _). vm_compute. reflexivity. Qed.

Lemma alphabet_at i :
  i < 64 -> decode_char (encode_char i) = Some i /\ encode_char i <> padChar.
Proof.
  intros Hi. pose proof alphabet_checked as H.
  rewrite Forall_forall in H. apply H.
  apply list_elem_of_fmap. exists (N.to_nat i). split; [lia|].
  apply elem_of_seq. lia.
Qed.

Lemma sextet_six val sh : sextet val sh = encode_char (six val sh).
Proof. reflexivity. Qed.

Lemma decode_sextet val sh : decode_char (sextet val sh) = Some (six val sh).
Proof. rewrite sextet_six. apply alphabet_at, six_lt. Qed.

Lemma sextet_not_pad val sh : sextet val sh <> padChar.
Proof. rewrite sextet_six. apply alphabet_at, six_lt. Qed.

Lemma octet_to_N (val sh : N) (b : byte) :
  N.land (N.shiftr val sh) 255 = Byte.to_N b -> octet val sh = Some b.
Proof. unfold octet. intros ->. apply Byte.of_to_N. Qed.

Lemma to_N_lt (b : byte) : Byte.to_N b < 256.
Proof. pose proof (Byte.to_N_bounded b). lia. Qed.

(** The three shapes of a group, in terms of [group3] and [group4]. *)
Lemma group3_one b0 : N.shiftl b0 16 = group3 b0 0 0.
Proof. unfold group3. rewrite N.shiftl_0_l, !N.lor_0_r. reflexivity. Qed.

Lemma group3_two b0 b1 :
  N.lor (N.shiftl b0 16) (N.shiftl b1 8) = group3 b0 b1 0.
Proof. unfold group3. rewrite N.lor_0_r. reflexivity. Qed.

Lemma group4_two v0 v1 :
  N.lor (N.shiftl v0 18) (N.shiftl v1 12) = group4 v0 v1 0 0.
Proof. unfold group4. rewrite N.shiftl_0_l, !N.lor_0_r. reflexivity. Qed.

Lemma group4_three v0 v1 v2 :
  N.lor (N.lor (N.shiftl v0 18) (N.shiftl v1 12)) (N.shiftl v2 6)
  = group4 v0 v1 v2 0.
Proof. unfold group4. rewrite N.lor_0_r. reflexivity. Qed.

Lemma six_low_one b0 :
  b0 < 256 -> six (group3 b0 0 0) 6 = 0 /\ six (group3 b0 0 0) 0 = 0.
Proof.
  intros H. rewrite group3_arith by lia. unfold six.
  rewrite !land_63, (shiftr_div _ 6 64), (shiftr_div _ 0 1) by reflexivity.
  div_lia.
Qed.

Lemma six_low_two b0 b1 :
  b0 < 256 -> b1 < 256 -> six (group3 b0 b1 0) 0 = 0.
Proof.
  intros H0 H1. rewrite group3_arith by lia. unfold six.
  rewrite !land_63, (shiftr_div _ 0 1) by reflexivity.
  div_lia.
Qed.

(** Decoding the characters of one group gives its bytes back. *)
Lemma octets_of_sextets (b0 b1 b2 : byte) :
  let val := group3 (Byte.to_N b0) (Byte.to_N b1) (Byte.to_N b2) in
  let val' := group4 (six val 18) (six val 12) (six val 6) (six val 0) in
  octet val' 16 = Some b0 /\ octet val' 8 = Some b1 /\ octet val' 0 = Some b2.
Proof.
  intros val val'. subst val'.
  rewrite group4_six by (apply group3_lt; apply to_N_lt).
  destruct (octets_group3 (Byte.to_N b0) (Byte.to_N b1) (Byte.to_N b2))
    as (H0 & H1 & H2); try apply to_N_lt.
  repeat split; apply octet_to_N; assumption.
Qed.

Lemma octets_of_sextets_two (b0 b1 : byte) :
  let val := group3 (Byte.to_N b0) (Byte.to_N b1) 0 in
  let val' := group4 (six val 18) (six val 12) (six val 6) 0 in
  octet val' 16 = Some b0 /\ octet val' 8 = Some b1.
Proof.
  intros val val'.
  assert (val' = val) as ->.
  { transitivity (group4 (six val 18) (six val 12) (six val 6) (six val 0)).
    - subst val' val. rewrite six_low_two by apply to_N_lt. reflexivity.
    - apply group4_six, group3_lt; try apply to_N_lt; lia. }
  destruct (octets_group3 (Byte.to_N b0) (Byte.to_N b1) 0)
    as (H0 & H1 & _); try apply to_N_lt; [lia|].
  split; apply octet_to_N; assumption.
Qed.

Lemma octets_of_sextets_one (b0 : byte) :
  let val := group3 (Byte.to_N b0) 0 0 in
  let val' := group4 (six val 18) (six val 12) 0 0 in
  octet val' 16 = Some b0.
Proof.
  intros val val'.
  destruct (six_low_one (Byte.to_N b0)) as [H6 H0]; [apply to_N_lt|].
  assert (val' = val) as ->.
  { transitivity (group4 (six val 18) (six val 12) (six val 6) (six val 0)).
    - subst val' val. rewrite H6, H0. reflexivity.
    - apply group4_six, group3_lt; try apply to_N_lt; lia. }
  destruct (octets_group3 (Byte.to_N b0) 0 0) as (H & _ & _);
    try apply to_N_lt; try lia.
  apply octet_to_N; assumption.
Qed.

Lemma decode_quanta_encode (raw : list byte) :
  decode_quanta (list_ascii_of_string (EncodeToString raw)) = Some raw.
Proof.
  remember (length raw) as n eqn:Hn. revert raw Hn.
  induction n as [n IH] using lt_wf_ind.
  intros [|b0 [|b1 [|b2 rest]]] Hn.
  - reflexivity.
  - cbn [EncodeToString list_ascii_of_string decode_quanta].
    rewrite group3_one, !decode_sextet. cbn [mbind option_bind].
    rewrite decide_True by done. rewrite decide_True by done.
    rewrite group4_two.
    rewrite (octets_of_sextets_one b0). reflexivity.
  - cbn [EncodeToString list_ascii_of_string decode_quanta].
    rewrite group3_two, !decode_sextet. cbn [mbind option_bind].
    rewrite decide_True by done.
    rewrite decide_False by apply sextet_not_pad.
    cbn [mbind option_bind]. rewrite group4_three.
    destruct (octets_of_sextets_two b0 b1) as [-> ->]. reflexivity.
  - cbn [EncodeToString list_ascii_of_string decode_quanta].
    fold (group3 (Byte.to_N b0) (Byte.to_N b1) (Byte.to_N b2)).
    rewrite !decode_sextet. cbn [mbind option_bind].
    rewrite decide_False by (intros [_ H]; exact (sextet_not_pad _ _ H)).
    fold (group4 (six (group3 (Byte.to_N b0) (Byte.to_N b1) (Byte.to_N b2)) 18)
                 (six (group3 (Byte.to_N b0) (Byte.to_N b1) (Byte.to_N b2)) 12)
                 (six (group3 (Byte.to_N b0) (Byte.to_N b1) (Byte.to_N b2)) 6)
                 (six (group3 (Byte.to_N b0) (Byte.to_N b1) (Byte.to_N b2)) 0)).
    destruct (octets_of_sextets b0 b1 b2) as (-> & -> & ->).
    cbn [mbind option_bind].
    rewrite (IH (length rest)) by (simpl in Hn; lia || reflexivity).
    reflexivity.
Qed.

End base64_round_trip.

Lemma DecodeString_EncodeToString (raw : list byte) :
  Base64.DecodeString (Base64.EncodeToString raw) = Some raw.
Proof. apply decode_quanta_encode. Qed.

(** Padding: the encoding of [n] bytes has [4 * ceil(n / 3)] characters. *)
Lemma EncodeToString_length (raw : list byte) :
  String.length (Base64.EncodeToString raw) = 4 * ((length raw + 2) / 3).
Proof.
  remember (length raw) as n eqn:Hn. revert raw Hn.
  induction n as [n IH] using lt_wf_ind.
  intros [|b0 [|b1 [|b2 rest]]] ->; try reflexivity.
  cbn [Base64.EncodeToString String.length length].
  rewrite (IH (length rest)) by (simpl; lia || reflexivity).
  replace (S (S (S (length rest))) + 2) with (length rest + 2 + 1 * 3) by lia.
  rewrite Nat.div_add by lia. lia.
Qed.

(** C5: [SendRawEmail] files the base64 encoding of the raw message under
    [RawMessage.Data] and nothing else there, and decoding that value gives
    the message back, whatever its bytes, the empty message included. *)
Theorem raw_message_round_trip (c : Current.Config) (raw : list byte) :
  Current.SendRawEmail_params c raw !! "RawMessage.Data"
  = Some [Base64.EncodeToString raw]
  /\ Base64.DecodeString
       (Values.Get "RawMessage.Data" (Current.SendRawEmail_params c raw))
     = Some raw
  /\ Base64.DecodeString (Base64.EncodeToString []) = Some [].
Proof.
  assert (Current.SendRawEmail_params c raw !! "RawMessage.Data"
          = Some [Base64.EncodeToString raw]) as H.
  { unfold Current.SendRawEmail_params. lookup_field. }
  split; [exact H|]. split.
  - unfold Values.Get. rewrite H. apply DecodeString_EncodeToString.
  - reflexivity.
Qed.

(** ** The dispatcher *)

Lemma current_sesPost_request w c data :
  Current.sesPost_request w c data
  = match Current.url_error w (Current.Endpoint c) with
    | Some e => inr e
    | None =>
        match Current.Sign w (Current.mkCredentials (Current.AccessKeyID c)
                                (Current.SecretAccessKey c))
                (unsigned_request w c) (URL.Encode data) "email"
                (Current.Region c) (Current.now w) with
        | (_, Some e) => inr e
        | (req, None) => inl req
        end
    end.
Proof.
  unfold Current.sesPost_request, HTTP.NewRequest.
  destruct (Current.url_error w (Current.Endpoint c)); reflexivity.
Qed.

Lemma current_sesPost_signed w c data req :
  Current.sesPost_request w c data = inl req ->
  Current.Sign w (Current.mkCredentials (Current.AccessKeyID c)
                    (Current.SecretAccessKey c))
    (unsigned_request w c) (URL.Encode data) "email" (Current.Region c)
    (Current.now w) = (req, None).
Proof.
  rewrite current_sesPost_request.
  destruct (Current.url_error w (Current.Endpoint c)); [discriminate|].
  destruct (Current.Sign _ _ _ _ _ _ _) as [req' [e|]]; [discriminate|].
  intros [= ->]. reflexivity.
Qed.

Lemma current_sent_requests w c data :
  sent_requests (Current.sesPost w c data)
  = match Current.sesPost_request w c data with
    | inl req => [req]
    | inr _ => []
    end.
Proof.
  unfold Current.sesPost, Current.sesPost_dispatch.
  destruct (Current.sesPost_request w c data) as [req|e]; [|reflexivity].
  destruct (Current.HTTPClient c req) as [resp|e]; [|reflexivity].
  destruct (HTTP.ReadAll (HTTP.RespBody resp)) as [b [e|]]; [reflexivity|].
  case_decide; reflexivity.
Qed.

Lemma legacy_sesPost_request w data endpoint id secret :
  Legacy.sesPost_request w data endpoint id secret
  = match Legacy.url_error w endpoint with
    | Some e => inr e
    | None =>
        let date := Legacy.Format w date_layout (Legacy.now w) in
        inl (HTTP.set_header "X-Amzn-Authorization"
               ("AWS3-HTTPS AWSAccessKeyId=" +:+ id
                +:+ ", Algorithm=HmacSHA256, Signature="
                +:+ Legacy.signature w date secret)
               (HTTP.set_header "Date" date
                  (HTTP.set_header "Content-Type" "application/x-www-form-urlencoded"
                     (HTTP.mkRequest "POST" endpoint ∅ (Some (URL.Encode data))))))
    end.
Proof.
  unfold Legacy.sesPost_request, HTTP.NewRequest.
  destruct (Legacy.url_error w endpoint); reflexivity.
Qed.

Lemma legacy_sent_requests w data endpoint id secret :
  sent_requests (Legacy.sesPost w data endpoint id secret)
  = match Legacy.sesPost_request w data endpoint id secret with
    | inl req => [req]
    | inr _ => []
    end.
Proof.
  unfold Legacy.sesPost, Legacy.sesPost_dispatch.
  destruct (Legacy.sesPost_request _ _ _ _ _) as [req|e]; [|reflexivity].
  destruct (Legacy.DefaultClient w req) as [resp|e]; [|reflexivity].
  case_decide; reflexivity.
Qed.

Lemma example_signer_sdk : sdk_signer example_signer.
Proof.
  intros creds req body service region t req' [= <-]. simpl.
  unfold HTTP.Header_Set. rewrite !lookup_insert_ne by discriminate.
  rewrite lookup_insert_eq. eauto 10.
Qed.

(** ** Results and errors *)

(** C4: when the transport answers with status [s] and a body that reads
    as [b], the call returns [b] and no error if [s] is 200, and otherwise
    the empty string with the error [error code <s>. response: <b>]; when
    reading the body fails, the call returns the empty string and the read
    error. *)
Theorem sesPost_result_by_status (w : Current.World) (c : Current.Config)
    (data : Values.t) (req : HTTP.Request) (resp : HTTP.Response) :
  Current.sesPost_request w c data = inl req ->
  Current.HTTPClient c req = inl resp ->
  HTTP.result (Current.sesPost w c data)
  = match HTTP.read_error (HTTP.RespBody resp) with
    | Some e => ("", Some e)
    | None =>
        if decide (HTTP.StatusCode resp = 200%Z)
        then (HTTP.content (HTTP.RespBody resp), None)
        else ("", Some (Err ("error code " +:+ pretty (HTTP.StatusCode resp)
                             +:+ ". response: " +:+ HTTP.content (HTTP.RespBody resp))))
    end.
Proof.
  intros Hreq Hdo. unfold Current.sesPost, Current.sesPost_dispatch.
  rewrite Hreq, Hdo. unfold HTTP.ReadAll.
  destruct (HTTP.read_error (HTTP.RespBody resp)); [reflexivity|].
  unfold HTTP.StatusOK. repeat case_decide; try reflexivity; contradiction.
Qed.

(** The scenario of the 400 answer. *)
Lemma sesPost_result_by_status_witness :
  HTTP.result (Current.sesPost example_world
                 (example_config (answering 400 (HTTP.mkBody "message failed" None)))
                 example_params)
  = ("", Some (Err "error code 400. response: message failed")).
Proof.
  exact (sesPost_result_by_status example_world
           (example_config (answering 400 (HTTP.mkBody "message failed" None)))
           example_params _ _ eq_refl eq_refl).
Defined.

(** The scenario of the 200 answer. *)
Example sesPost_success :
  HTTP.result (Current.sesPost example_world
                 (example_config
                    (answering 200
                       (HTTP.mkBody "<SendEmailResponse>...</SendEmailResponse>" None)))
                 example_params)
  = ("<SendEmailResponse>...</SendEmailResponse>", None).
Proof. reflexivity. Qed.

Lemma current_error_means_empty w c data :
  error_means_empty (Current.sesPost w c data).
Proof.
  unfold error_means_empty, Current.sesPost, Current.sesPost_dispatch.
  destruct (Current.sesPost_request w c data) as [req|e0]; [|reflexivity].
  destruct (Current.HTTPClient c req) as [resp|e0]; [|reflexivity].
  destruct (HTTP.ReadAll (HTTP.RespBody resp)) as [b [e0|]]; [reflexivity|].
  case_decide; [reflexivity|]. simpl. discriminate.
Qed.

Lemma legacy_error_means_empty w data endpoint id secret :
  error_means_empty (Legacy.sesPost w data endpoint id secret).
Proof.
  unfold error_means_empty, Legacy.sesPost, Legacy.sesPost_dispatch.
  destruct (Legacy.sesPost_request _ _ _ _ _) as [req|e0]; [|reflexivity].
  destruct (Legacy.DefaultClient w req) as [resp|e0]; [|reflexivity].
  case_decide; [reflexivity|]. simpl. discriminate.
Qed.

(** C9: whenever [sesPost] of either revision returns an error, the string
    it returns with it is empty, whichever step failed: making the request,
    signing, the transport, reading the body, or a status other than 200. *)
Theorem error_result_is_empty (w : Current.World) (c : Current.Config)
    (w' : Legacy.World) (data : Values.t) (endpoint id secret : string) (e : error) :
  (snd (HTTP.result (Current.sesPost w c data)) = Some e ->
   fst (HTTP.result (Current.sesPost w c data)) = "")
  /\ (snd (HTTP.result (Legacy.sesPost w' data endpoint id secret)) = Some e ->
      fst (HTTP.result (Legacy.sesPost w' data endpoint id secret)) = "").
Proof.
  split.
  - apply current_error_means_empty.
  - apply legacy_error_means_empty.
Qed.

Lemma error_result_is_empty_witness :
  fst (HTTP.result (Current.sesPost example_world
                      (example_config (answering 400 (HTTP.mkBody "message failed" None)))
                      example_params)) = ""
  /\ fst (HTTP.result (Legacy.sesPost
                         (example_legacy_world 400 (HTTP.mkBody "message failed" None))
                         example_params "https://email.example" "AKID" "secret")) = "".
Proof.
  pose proof (error_result_is_empty example_world
                (example_config (answering 400 (HTTP.mkBody "message failed" None)))
                (example_legacy_world 400 (HTTP.mkBody "message failed" None))
                example_params "https://email.example" "AKID" "secret"
                (Err "error code 400. response: message failed")) as [H1 H2].
  split; [apply H1 | apply H2]; reflexivity.
Defined.

(** ** Closing the response body *)

(** After a read that succeeded the body is closed, whatever the status. *)
Lemma body_closed_after_read w c data req resp :
  Current.sesPost_request w c data = inl req ->
  Current.HTTPClient c req = inl resp ->
  HTTP.read_error (HTTP.RespBody resp) = None ->
  HTTP.trace (Current.sesPost w c data)
  = [HTTP.Sent req; HTTP.ReadBody; HTTP.ClosedBody].
Proof.
  intros Hreq Hdo Hread. unfold Current.sesPost, Current.sesPost_dispatch.
  rewrite Hreq, Hdo. unfold HTTP.ReadAll. rewrite Hread.
  case_decide; reflexivity.
Qed.

(** The date-signed revision drops the read error and always closes. *)
Lemma legacy_body_closed w data endpoint id secret req resp :
  Legacy.sesPost_request w data endpoint id secret = inl req ->
  Legacy.DefaultClient w req = inl resp ->
  HTTP.trace (Legacy.sesPost w data endpoint id secret)
  = [HTTP.Sent req; HTTP.ReadBody; HTTP.ClosedBody].
Proof.
  intros Hreq Hdo. unfold Legacy.sesPost, Legacy.sesPost_dispatch.
  rewrite Hreq, Hdo. case_decide; reflexivity.
Qed.

(** When the read fails, [sesPost] returns before the close is deferred. *)
Lemma body_left_open_on_read_error w c data req resp e :
  Current.sesPost_request w c data = inl req ->
  Current.HTTPClient c req = inl resp ->
  HTTP.read_error (HTTP.RespBody resp) = Some e ->
  Current.sesPost w c data = HTTP.mkRun ("", Some e) [HTTP.Sent req; HTTP.ReadBody].
Proof.
  intros Hreq Hdo Hread. unfold Current.sesPost, Current.sesPost_dispatch.
  rewrite Hreq, Hdo. unfold HTTP.ReadAll. rewrite Hread. reflexivity.
Qed.

(** C2 (the SigV4 [sesPost]): the transport answers with status 200 and a
    body whose read breaks off with [unexpected EOF]; the run returns that
    error after sending and reading, and the body is never closed. *)
Theorem sesPost_read_error_leaves_body_open :
  let r := Current.sesPost example_world
             (example_config
                (answering 200 (HTTP.mkBody "<SendEmailRes" (Some (Err "unexpected EOF")))))
             example_params in
  HTTP.result r = ("", Some (Err "unexpected EOF"))
  /\ (exists req, HTTP.trace r = [HTTP.Sent req; HTTP.ReadBody])
  /\ ~ body_closed r.
Proof.
  split; [reflexivity|]. split.
  - eexists. reflexivity.
  - unfold body_closed. intros H.
    apply list_elem_of_In in H. simpl in H.
    destruct H as [H|[H|[]]]; discriminate H.
Qed.

(** ** The request that is sent *)

(** C3: a run of [sesPost] hands at most one request to the transport,
    and exactly one once the request is made (and, in the SigV4 revision,
    signed by a signer that keeps to the SDK's contract).  That request is
    a [POST] to the configured endpoint, its [Content-Type] is
    [application/x-www-form-urlencoded], its body is the encoding of the
    parameters ([Encode] writes the keys in sorted order), and its [Date]
    header is the formatted instant that is signed: the date string itself
    in the date-signed revision, the time given to the signer in the SigV4
    revision. *)
Theorem sesPost_sends_one_form_post (w : Current.World) (c : Current.Config)
    (w' : Legacy.World) (c' : Legacy.Config) (data : Values.t)
    (req req' : HTTP.Request) :
  (sdk_signer (Current.Sign w) ->
   Current.sesPost_request w c data = inl req ->
   sent_requests (Current.sesPost w c data) = [req]
   /\ HTTP.Method req = "POST"
   /\ HTTP.Url req = Current.Endpoint c
   /\ HTTP.Hdr req !! "Content-Type" = Some [form_urlencoded]
   /\ HTTP.Body req = Some (URL.Encode data)
   /\ HTTP.Hdr req !! "Date" = Some [Current.Format w date_layout (Current.now w)]
   /\ Current.sigv4 w c (unsigned_request w c) (URL.Encode data) (Current.now w)
      = (req, None))
  /\ (Legacy.sesPost_request w' data (Legacy.Endpoint c') (Legacy.AccessKeyID c')
     (Legacy.SecretAccessKey c') = inl req' ->
      sent_requests (Legacy.sesPost w' data (Legacy.Endpoint c') (Legacy.AccessKeyID c')
                        (Legacy.SecretAccessKey c')) = [req']
      /\ HTTP.Method req' = "POST"
      /\ HTTP.Url req' = Legacy.Endpoint c'
      /\ HTTP.Hdr req' !! "Content-Type" = Some [form_urlencoded]
      /\ HTTP.Body req' = Some (URL.Encode data)
      /\ HTTP.Hdr req' !! "Date" = Some [Legacy.Format w' date_layout (Legacy.now w')]
      /\ HTTP.Hdr req' !! "X-Amzn-Authorization"
         = Some (Legacy.authorizationHeader w'
                   (Legacy.Format w' date_layout (Legacy.now w'))
                   (Legacy.AccessKeyID c') (Legacy.SecretAccessKey c'))).
Proof.
  split.
  - intros Hsdk Hreq. rewrite current_sent_requests, Hreq.
    pose proof (current_sesPost_signed _ _ _ _ Hreq) as Hsign.
    destruct (Hsdk _ _ _ _ _ _ _ Hsign) as (Hm & Hu & Hb & Hct & Hd & _).
    unfold Current.sigv4. repeat split; assumption.
  - intros Hreq'. rewrite legacy_sent_requests, Hreq'.
    rewrite legacy_sesPost_request in Hreq'.
    destruct (Legacy.url_error w' (Legacy.Endpoint c')); [discriminate|].
    injection Hreq' as <-. repeat split.
Qed.

Lemma sesPost_sends_one_form_post_witness :
  exists req req',
    sent_requests (Current.sesPost example_world
                     (example_config (answering 200 (HTTP.mkBody "ok" None)))
                     example_params) = [req]
    /\ HTTP.Body req = Some "Action=SendRawEmail"
    /\ sent_requests (Legacy.sesPost (example_legacy_world 200 (HTTP.mkBody "ok" None))
                        example_params "https://email.example" "AKID" "secret") = [req']
    /\ HTTP.Body req' = Some "Action=SendRawEmail".
Proof.
  eexists. eexists.
  epose proof (sesPost_sends_one_form_post example_world
                (example_config (answering 200 (HTTP.mkBody "ok" None)))
                (example_legacy_world 200 (HTTP.mkBody "ok" None))
                (Legacy.mkConfig "https://email.example" "AKID" "secret")
                example_params _ _)
    as [Hcur Hleg].
  destruct (Hcur example_signer_sdk eq_refl) as (H1 & _ & _ & _ & H2 & _).
  destruct (Hleg eq_refl) as (H3 & _ & _ & _ & H4 & _).
  split; [exact H1|]. split; [exact H2|]. split; [exact H3|exact H4].
Defined.

(** At most one request is sent, whatever fails. *)
Lemma sesPost_sends_at_most_one w c data :
  length (sent_requests (Current.sesPost w c data)) <= 1.
Proof.
  rewrite current_sent_requests.
  destruct (Current.sesPost_request w c data); simpl; lia.
Qed.

(** ** The authorization header *)

(** C7: in the date-signed revision the request carries, as
    [X-Amzn-Authorization], the value [authorizationHeader] computes for
    the [Date] header: [AWS3-HTTPS AWSAccessKeyId=<id>,
    Algorithm=HmacSHA256, Signature=<sig>] with [<sig>] the base64 encoding
    of HMAC-SHA256 keyed by the secret key over the bytes of the date
    string.  In the SigV4 revision the signer is given the two keys of the
    configuration, and with a signer that keeps to the SDK's contract the
    [Authorization] header starts with [AWS4-HMAC-SHA256].  In both, the
    header starts with the name of the scheme and contains the access key
    id as it is configured. *)
Theorem authorization_header_format (w : Current.World) (c : Current.Config)
    (w' : Legacy.World) (c' : Legacy.Config) (data : Values.t)
    (req req' : HTTP.Request) :
  (Legacy.sesPost_request w' data (Legacy.Endpoint c') (Legacy.AccessKeyID c')
     (Legacy.SecretAccessKey c') = inl req' ->
   exists auth,
     HTTP.Hdr req' !! "X-Amzn-Authorization" = Some [auth]
     /\ Legacy.authorizationHeader w' (HTTP.Header_Get "Date" (HTTP.Hdr req'))
          (Legacy.AccessKeyID c') (Legacy.SecretAccessKey c')
        = [auth]
     /\ auth = "AWS3-HTTPS AWSAccessKeyId=" +:+ Legacy.AccessKeyID c'
               +:+ ", Algorithm=HmacSHA256, Signature="
               +:+ Base64.EncodeToString
                     (Legacy.hmac_sha256 w' (list_byte_of_string (Legacy.SecretAccessKey c'))
                        (list_byte_of_string (HTTP.Header_Get "Date" (HTTP.Hdr req'))))
     /\ String.prefix "AWS3-HTTPS" auth = true
     /\ contains (Legacy.AccessKeyID c') auth)
  /\ (sdk_signer (Current.Sign w) ->
      Current.sesPost_request w c data = inl req ->
      Current.sigv4 w c (unsigned_request w c) (URL.Encode data) (Current.now w)
      = Current.Sign w (Current.mkCredentials (Current.AccessKeyID c)
                          (Current.SecretAccessKey c))
          (unsigned_request w c) (URL.Encode data) "email" (Current.Region c)
          (Current.now w)
      /\ exists auth,
           HTTP.Hdr req !! "Authorization" = Some [auth]
           /\ String.prefix "AWS4-HMAC-SHA256" auth = true
           /\ contains (Current.AccessKeyID c) auth).
Proof.
  split.
  - intros Hreq'. rewrite legacy_sesPost_request in Hreq'.
    destruct (Legacy.url_error w' (Legacy.Endpoint c')); [discriminate|].
    injection Hreq' as <-. eexists. split; [reflexivity|].
    split; [reflexivity|]. split; [reflexivity|]. split; [reflexivity|].
    exists "AWS3-HTTPS AWSAccessKeyId=". eexists. reflexivity.
  - intros Hsdk Hreq. split; [reflexivity|].
    pose proof (current_sesPost_signed _ _ _ _ Hreq) as Hsign.
    destruct (Hsdk _ _ _ _ _ _ _ Hsign) as (_ & _ & _ & _ & _ & scope & Hauth).
    eexists. split; [exact Hauth|]. split; [reflexivity|].
    exists "AWS4-HMAC-SHA256 Credential=". eexists. reflexivity.
Qed.

Lemma authorization_header_format_witness :
  exists req req',
    Current.sesPost_request example_world
      (example_config (answering 200 (HTTP.mkBody "ok" None))) example_params = inl req
    /\ Legacy.sesPost_request (example_legacy_world 200 (HTTP.mkBody "ok" None))
         example_params "https://email.example" "AKID" "secret" = inl req'
    /\ (exists auth, HTTP.Hdr req' !! "X-Amzn-Authorization" = Some [auth]
                     /\ String.prefix "AWS3-HTTPS" auth = true
                     /\ contains "AKID" auth)
    /\ (exists auth, HTTP.Hdr req !! "Authorization" = Some [auth]
                     /\ String.prefix "AWS4-HMAC-SHA256" auth = true
                     /\ contains "AKID" auth).
Proof.
  eexists. eexists. split; [reflexivity|]. split; [reflexivity|].
  epose proof (authorization_header_format example_world
                (example_config (answering 200 (HTTP.mkBody "ok" None)))
                (example_legacy_world 200 (HTTP.mkBody "ok" None))
                (Legacy.mkConfig "https://email.example" "AKID" "secret")
                example_params _ _)
    as [Hleg Hcur].
  destruct (Hleg eq_refl) as (auth & H1 & _ & _ & H2 & H3).
  destruct (Hcur example_signer_sdk eq_refl) as (_ & auth' & H4 & H5 & H6).
  split.
  - exists auth. repeat split; assumption.
  - exists auth'. repeat split; assumption.
Defined.

(** ** Determinism of the encoded body *)

(** Sorting forgets the order in which the map gave its keys. *)
Lemma EncodeFrom_order_irrelevant (v : Values.t) (ks1 ks2 : list string) :
  ks1 ≡ₚ ks2 -> URL.EncodeFrom ks1 v = URL.EncodeFrom ks2 v.
Proof.
  intros Hperm. unfold URL.EncodeFrom. f_equal.
  apply (Sorted_unique String.le).
  - apply Sorted_merge_sort; apply _.
  - apply Sorted_merge_sort; apply _.
  - rewrite !merge_sort_Permutation. exact Hperm.
Qed.

Lemma EncodeFrom_iteration (v : Values.t) (ks : list string) :
  URL.iteration_of v ks -> URL.EncodeFrom ks v = URL.Encode v.
Proof. intros H. apply EncodeFrom_order_irrelevant, H. Qed.

Lemma same_run_same_body (run : outcome Values.t) : same_body run run.
Proof.
  intros d1 d2 ks1 ks2 H1 H2 Hk1 Hk2. rewrite H1 in H2. injection H2 as <-.
  rewrite (EncodeFrom_iteration _ _ Hk1), (EncodeFrom_iteration _ _ Hk2).
  reflexivity.
Qed.

(** C8: two runs of a builder on the same inputs and configuration give
    the same encoded body, byte for byte, in whatever order each run's map
    hands out its keys. *)
Theorem builders_deterministic (c : Current.Config) (from : string)
    (to cc bcc : slice) (subject body bodyText bodyHTML : string) (raw : list byte)
    (d1 d2 : Values.t) (ks1 ks2 : list string) :
  URL.iteration_of d1 ks1 -> URL.iteration_of d2 ks2 ->
  (Current.SendEmail_params c from to cc bcc subject body = Done d1 ->
   Current.SendEmail_params c from to cc bcc subject body = Done d2 ->
   URL.EncodeFrom ks1 d1 = URL.EncodeFrom ks2 d2)
  /\ (Current.SendEmailHTML_params c from to cc bcc subject bodyText bodyHTML = Done d1 ->
      Current.SendEmailHTML_params c from to cc bcc subject bodyText bodyHTML = Done d2 ->
      URL.EncodeFrom ks1 d1 = URL.EncodeFrom ks2 d2)
  /\ (Current.SendRawEmail_params c raw = d1 ->
      Current.SendRawEmail_params c raw = d2 ->
      URL.EncodeFrom ks1 d1 = URL.EncodeFrom ks2 d2).
Proof.
  intros Hk1 Hk2. repeat split; intros H1 H2.
  - exact (same_run_same_body _ _ _ _ _ H1 H2 Hk1 Hk2).
  - exact (same_run_same_body _ _ _ _ _ H1 H2 Hk1 Hk2).
  - apply (same_run_same_body (Done (Current.SendRawEmail_params c raw)));
      congruence.
Qed.

Lemma builders_deterministic_witness :
  URL.EncodeFrom ["RawMessage.Data"; "Action"; "AWSAccessKeyId"]
    (Current.SendRawEmail_params (example_config (answering 200 (HTTP.mkBody "ok" None)))
       (list_byte_of_string "light w"))
  = URL.EncodeFrom ["AWSAccessKeyId"; "RawMessage.Data"; "Action"]
      (Current.SendRawEmail_params (example_config (answering 200 (HTTP.mkBody "ok" None)))
         (list_byte_of_string "light w")).
Proof.
  refine (proj2 (proj2 (builders_deterministic
            (example_config (answering 200 (HTTP.mkBody "ok" None)))
            "" None None None "" "" "" "" (list_byte_of_string "light w")
            _ _ _ _ _ _)) eq_refl eq_refl).
  - unfold URL.iteration_of. apply (bool_decide_unpack _). vm_compute. reflexivity.
  - unfold URL.iteration_of. apply (bool_decide_unpack _). vm_compute. reflexivity.
Defined.

(** * Further properties *)

(** ** Numbering of the recipients, for all inputs *)

(** X1: in the SigV4 revision the parameters of [SendEmail] and of
    [SendEmailHTML] hold, for each of [to], [cc] and [bcc], exactly the
    fields [member.1 .. member.n] of that kind, [member.<i>] carrying the
    i-th address of the list, whatever the other two lists are. *)
Theorem current_recipients_numbered_from_1
    (c : Current.Config) (from : string) (to cc bcc : slice)
    (subject body bodyText bodyHTML : string) :
  (exists data,
      Current.SendEmail_params c from to cc bcc subject body = Done data
      /\ indexed_from_1 "To" to data /\ indexed_from_1 "Cc" cc data
      /\ indexed_from_1 "Bcc" bcc data)
  /\ (exists data,
      Current.SendEmailHTML_params c from to cc bcc subject bodyText bodyHTML = Done data
      /\ indexed_from_1 "To" to data /\ indexed_from_1 "Cc" cc data
      /\ indexed_from_1 "Bcc" bcc data).
Proof.
  split.
  - eexists. split; [apply current_SendEmail_params|].
    eapply current_params_indexed, current_SendEmail_params.
  - eexists. split; [apply current_SendEmailHTML_params|].
    eapply current_html_params_indexed, current_SendEmailHTML_params.
Qed.

(** X2: in the date-signed revision [SendEmailHTML] numbers all three
    lists from 1, and [SendEmail] numbers [cc] and [bcc] from 1 but files
    the i-th address of [to] (counting from 1) under [member.<i+10>]: the
    fields [member.1 .. member.10] of [to] are never set by it. *)
Theorem legacy_recipients_numbering
    (c : Legacy.Config) (from : string) (to cc bcc : slice)
    (subject body bodyText bodyHTML : string) :
  (exists data,
      Legacy.SendEmailHTML_params c from to cc bcc subject bodyText bodyHTML = Done data
      /\ indexed_from_1 "To" to data /\ indexed_from_1 "Cc" cc data
      /\ indexed_from_1 "Bcc" bcc data)
  /\ (exists data,
      Legacy.SendEmail_params c from to cc bcc subject body = Done data
      /\ indexed_from_1 "Cc" cc data /\ indexed_from_1 "Bcc" bcc data
      /\ (forall i, data !! member_key "To" (i + 11)
                    = (fun x => [x]) <$> elems to !! i)
      /\ (forall n, n < 11 -> data !! member_key "To" n = None)).
Proof.
  split.
  - eexists. split; [apply legacy_SendEmailHTML_params|].
    eapply legacy_html_params_indexed, legacy_SendEmailHTML_params.
  - eexists. split; [apply legacy_SendEmail_params|].
    destruct (legacy_params_numbering c from to cc bcc subject body _
                (legacy_SendEmail_params _ _ _ _ _ _ _)) as (Hto & Hcc & Hbcc).
    repeat split; try assumption.
    + intros i. rewrite Hto. unfold member_at.
      rewrite decide_True by lia. by rewrite Nat.add_sub.
    + intros n Hn. rewrite Hto. unfold member_at.
      rewrite decide_False by lia. reflexivity.
Qed.

(** ** Number of fields *)

Lemma size_Add_fresh key value (v : Values.t) :
  v !! key = None -> size (Values.Add key value v) = S (size v).
Proof. intros H. unfold Values.Add. by apply map_size_insert_None. Qed.

Lemma single_valued_Add_fresh key value (v : Values.t) :
  v !! key = None -> single_valued v -> single_valued (Values.Add key value v).
Proof.
  intros Hk Hv k vs. destruct (decide (key = k)) as [<-|Hne].
  - rewrite lookup_Add_eq, Hk. intros [= <-]. by eexists.
  - rewrite lookup_Add_ne by exact Hne. apply Hv.
Qed.

Lemma single_valued_make : single_valued Values.make.
Proof. intros k vs. unfold Values.make. rewrite lookup_empty. discriminate. Qed.

Lemma add_all_fresh kind start l (data : Values.t) :
  (forall j, j < length l -> data !! member_key kind (start + j) = None) ->
  size (add_all kind start l data) = size data + length l
  /\ (single_valued data -> single_valued (add_all kind start l data)).
Proof.
  revert start data. induction l as [|x l IH]; intros start data Hfresh; simpl.
  - split; [lia | auto].
  - assert (data !! member_key kind start = None) as H0.
    { rewrite <- (Nat.add_0_r start). apply Hfresh. simpl. lia. }
    destruct (IH (S start) (Values.Add (member_key kind start) x data)) as [Hs Hv].
    { intros j Hj. rewrite lookup_Add_ne.
      - replace (S start + j) with (start + S j) by lia. apply Hfresh. simpl. lia.
      - intros H. apply member_key_inj in H. lia. }
    split.
    + rewrite Hs, size_Add_fresh by exact H0. lia.
    + intros Hd. apply Hv, single_valued_Add_fresh; assumption.
Qed.

(** A key is absent: it differs from every key written so far. *)
Ltac fresh_key :=
  repeat first
    [ rewrite lookup_Add_ne by key_neq
    | rewrite lookup_add_all_miss by (intros; key_neq)
    | apply lookup_empty ].

Lemma recipient_fields_fresh off_to from to cc bcc :
  let fields := recipient_fields off_to from to cc bcc
                  (Values.Add "Action" "SendEmail" Values.make) in
  size fields = 2 + len to + len cc + len bcc /\ single_valued fields.
Proof.
  unfold recipient_fields, len.
  set (d0 := Values.Add "Source" from (Values.Add "Action" "SendEmail" Values.make)).
  assert (size d0 = 2 /\ single_valued d0) as [Hs0 Hv0].
  { subst d0. split.
    - rewrite !size_Add_fresh by fresh_key. reflexivity.
    - repeat (apply single_valued_Add_fresh; [fresh_key|]).
      apply single_valued_make. }
  destruct (add_all_fresh "To" off_to (elems to) d0) as [Hs1 Hv1].
  { intros j _. subst d0. fresh_key. }
  set (d1 := add_all "To" off_to (elems to) d0) in *.
  destruct (add_all_fresh "Cc" 1 (elems cc) d1) as [Hs2 Hv2].
  { intros j _. subst d1 d0. fresh_key. }
  set (d2 := add_all "Cc" 1 (elems cc) d1) in *.
  destruct (add_all_fresh "Bcc" 1 (elems bcc) d2) as [Hs3 Hv3].
  { intros j _. subst d2 d1 d0. fresh_key. }
  split; [lia | auto].
Qed.

(** X3: the builders never write a key twice.  The parameters of
    [SendEmail] have [5 + len(to) + len(cc) + len(bcc)] keys, those of
    [SendEmailHTML] one more, those of [SendRawEmail] three, and every key
    has exactly one value, so that [Get] reads the value that was added. *)
Theorem builders_write_each_key_once
    (c : Current.Config) (from : string) (to cc bcc : slice)
    (subject body bodyText bodyHTML : string) (raw : list byte) :
  (exists data,
      Current.SendEmail_params c from to cc bcc subject body = Done data
      /\ size data = 5 + len to + len cc + len bcc /\ single_valued data)
  /\ (exists data,
      Current.SendEmailHTML_params c from to cc bcc subject bodyText bodyHTML = Done data
      /\ size data = 6 + len to + len cc + len bcc /\ single_valued data)
  /\ size (Current.SendRawEmail_params c raw) = 3
  /\ single_valued (Current.SendRawEmail_params c raw).
Proof.
  destruct (recipient_fields_fresh 1 from to cc bcc) as [Hs Hv].
  split; [|split; [|split]].
  - eexists. split; [apply current_SendEmail_params|]. split.
    + rewrite !size_Add_fresh by (unfold recipient_fields; fresh_key).
      rewrite Hs. lia.
    + repeat (apply single_valued_Add_fresh; [unfold recipient_fields; fresh_key|]).
      exact Hv.
  - eexists. split; [apply current_SendEmailHTML_params|]. split.
    + rewrite !size_Add_fresh by (unfold recipient_fields; fresh_key).
      rewrite Hs. lia.
    + repeat (apply single_valued_Add_fresh; [unfold recipient_fields; fresh_key|]).
      exact Hv.
  - unfold Current.SendRawEmail_params.
    rewrite !size_Add_fresh by fresh_key. reflexivity.
  - unfold Current.SendRawEmail_params.
    repeat (apply single_valued_Add_fresh; [fresh_key|]).
    apply single_valued_make.
Qed.

(** ** The revisions build the same parameters *)

Lemma interim_SendEmail_params c from to cc bcc subject body :
  Interim.SendEmail_params c from to cc bcc subject body
  = Done (Values.Add "AWSAccessKeyId" (Interim.AccessKeyID c)
           (Values.Add "Message.Body.Text.Data" body
             (Values.Add "Message.Subject.Data" subject
               (recipient_fields 1 from to cc bcc
                  (Values.Add "Action" "SendEmail" Values.make))))).
Proof.
  unfold Interim.SendEmail_params. rewrite current_fillRecipients. reflexivity.
Qed.

Lemma interim_SendEmailHTML_params c from to cc bcc subject bodyText bodyHTML :
  Interim.SendEmailHTML_params c from to cc bcc subject bodyText bodyHTML
  = Done (Values.Add "AWSAccessKeyId" (Interim.AccessKeyID c)
           (Values.Add "Message.Body.Html.Data" bodyHTML
             (Values.Add "Message.Body.Text.Data" bodyText
               (Values.Add "Message.Subject.Data" subject
                 (recipient_fields 1 from to cc bcc
                    (Values.Add "Action" "SendEmail" Values.make)))))).
Proof.
  unfold Interim.SendEmailHTML_params. rewrite current_fillRecipients. reflexivity.
Qed.

(** X4: with the same access key the three revisions build the same
    parameters for [SendEmailHTML] and [SendRawEmail], and the two SigV4
    revisions for [SendEmail] as well; the date-signed [SendEmail] agrees
    with the later ones exactly when [to] has no address. *)
Theorem revisions_build_same_parameters
    (c : Current.Config) (c1 : Legacy.Config) (c2 : Interim.Config)
    (from : string) (to cc bcc : slice) (subject body bodyText bodyHTML : string)
    (raw : list byte) :
  Legacy.AccessKeyID c1 = Current.AccessKeyID c ->
  Interim.AccessKeyID c2 = Current.AccessKeyID c ->
  Legacy.SendEmailHTML_params c1 from to cc bcc subject bodyText bodyHTML
  = Current.SendEmailHTML_params c from to cc bcc subject bodyText bodyHTML
  /\ Interim.SendEmailHTML_params c2 from to cc bcc subject bodyText bodyHTML
     = Current.SendEmailHTML_params c from to cc bcc subject bodyText bodyHTML
  /\ Interim.SendEmail_params c2 from to cc bcc subject body
     = Current.SendEmail_params c from to cc bcc subject body
  /\ Legacy.SendRawEmail_params c1 raw = Current.SendRawEmail_params c raw
  /\ Interim.SendRawEmail_params c2 raw = Current.SendRawEmail_params c raw
  /\ (Legacy.SendEmail_params c1 from to cc bcc subject body
      = Current.SendEmail_params c from to cc bcc subject body
      <-> len to = 0).
Proof.
  intros H1 H2.
  rewrite legacy_SendEmailHTML_params, interim_SendEmailHTML_params,
    interim_SendEmail_params, current_SendEmailHTML_params,
    current_SendEmail_params, H1, H2.
  unfold Legacy.SendRawEmail_params, Interim.SendRawEmail_params,
    Current.SendRawEmail_params. rewrite H1, H2.
  repeat split; try reflexivity.
  - intros Heq.
    destruct (legacy_params_numbering c1 from to cc bcc subject body _
                (legacy_SendEmail_params _ _ _ _ _ _ _)) as (Hleg & _).
    destruct (current_params_indexed c from to cc bcc subject body _
                (current_SendEmail_params _ _ _ _ _ _ _)) as (Hcur & _).
    rewrite legacy_SendEmail_params in Heq.
    injection Heq as Heq. specialize (Hleg 1). specialize (Hcur 1).
    rewrite Heq, Hcur in Hleg. unfold member_at, len in *.
    rewrite decide_False in Hleg by lia.
    destruct (elems to); [reflexivity | discriminate].
  - intros Hlen. rewrite legacy_SendEmail_params, H1.
    unfold recipient_fields, len in *.
    destruct (elems to); [reflexivity | discriminate].
Qed.

Lemma revisions_build_same_parameters_witness :
  Legacy.SendEmailHTML_params (Legacy.mkConfig "https://email.example" "AKID" "secret")
    "a@x.com" (Some ["b@x.com"]) None None "hello" "text" "<p>text</p>"
  = Current.SendEmailHTML_params (example_config mockHTTPBadRequest)
      "a@x.com" (Some ["b@x.com"]) None None "hello" "text" "<p>text</p>".
Proof.
  apply (revisions_build_same_parameters (example_config mockHTTPBadRequest)
           (Legacy.mkConfig "https://email.example" "AKID" "secret")
           (Interim.mkConfig "https://email.example" "us-east-1" "AKID" "secret")
           "a@x.com" (Some ["b@x.com"]) None None "hello" "text" "text" "<p>text</p>"
           [] eq_refl eq_refl).
Defined.

(** ** The failure paths of the dispatcher *)

(** X5: [sesPost] stops at the first step that fails and returns that
    step's error unchanged: when the endpoint does not parse or the signer
    fails, no request reaches the transport; when the transport fails, the
    request was sent and nothing is read or closed. *)
Theorem sesPost_stops_at_first_failure (w : Current.World) (c : Current.Config)
    (data : Values.t) (e : error) (req : HTTP.Request) :
  (Current.url_error w (Current.Endpoint c) = Some e ->
   Current.sesPost w c data = HTTP.mkRun ("", Some e) [])
  /\ (Current.url_error w (Current.Endpoint c) = None ->
      Current.sigv4 w c (unsigned_request w c) (URL.Encode data) (Current.now w)
      = (req, Some e) ->
      Current.sesPost w c data = HTTP.mkRun ("", Some e) [])
  /\ (Current.sesPost_request w c data = inl req ->
      Current.HTTPClient c req = inr e ->
      Current.sesPost w c data = HTTP.mkRun ("", Some e) [HTTP.Sent req]).
Proof.
  unfold Current.sesPost. rewrite current_sesPost_request. unfold Current.sigv4.
  repeat split.
  - intros ->. reflexivity.
  - intros -> ->. reflexivity.
  - intros -> Hdo. unfold Current.sesPost_dispatch. rewrite Hdo. reflexivity.
Qed.

Lemma sesPost_stops_at_first_failure_witness :
  Current.sesPost (unparsable_world (Err "missing protocol scheme"))
    (example_config mockHTTPBadRequest) example_params
  = HTTP.mkRun ("", Some (Err "missing protocol scheme")) []
  /\ Current.sesPost (unsigned_world (Err "static credentials are empty"))
       (example_config mockHTTPBadRequest) example_params
     = HTTP.mkRun ("", Some (Err "static credentials are empty")) []
  /\ exists req,
       Current.sesPost example_world
         (example_config (refusing (Err "connection refused"))) example_params
       = HTTP.mkRun ("", Some (Err "connection refused")) [HTTP.Sent req].
Proof.
  split; [|split].
  - exact (proj1 (sesPost_stops_at_first_failure
             (unparsable_world (Err "missing protocol scheme"))
             (example_config mockHTTPBadRequest) example_params
             (Err "missing protocol scheme")
             (unsigned_request example_world (example_config mockHTTPBadRequest)))
             eq_refl).
  - exact (proj1 (proj2 (sesPost_stops_at_first_failure
             (unsigned_world (Err "static credentials are empty"))
             (example_config mockHTTPBadRequest) example_params
             (Err "static credentials are empty") _)) eq_refl eq_refl).
  - eexists.
    exact (proj2 (proj2 (sesPost_stops_at_first_failure example_world
             (example_config (refusing (Err "connection refused"))) example_params
             (Err "connection refused") _)) eq_refl eq_refl).
Defined.

(** X6: [sesPost] returns without an error exactly when the request was
    made and signed, the transport answered with status 200 and the body
    was read to its end; it then returns the whole body, and the body was
    closed after the read. *)
Theorem sesPost_succeeds_iff (w : Current.World) (c : Current.Config)
    (data : Values.t) :
  snd (HTTP.result (Current.sesPost w c data)) = None
  <-> exists req resp,
        Current.sesPost_request w c data = inl req
        /\ Current.HTTPClient c req = inl resp
        /\ HTTP.StatusCode resp = 200%Z
        /\ HTTP.read_error (HTTP.RespBody resp) = None
        /\ Current.sesPost w c data
           = HTTP.mkRun (HTTP.content (HTTP.RespBody resp), None)
               [HTTP.Sent req; HTTP.ReadBody; HTTP.ClosedBody].
Proof.
  unfold Current.sesPost, Current.sesPost_dispatch, HTTP.ReadAll, HTTP.StatusOK.
  split.
  - destruct (Current.sesPost_request w c data) as [req|e]; [|discriminate].
    destruct (Current.HTTPClient c req) as [resp|e] eqn:Hdo; [|discriminate].
    destruct (HTTP.read_error (HTTP.RespBody resp)) eqn:Hread; [discriminate|].
    case_decide as Hs; [discriminate|]. intros _.
    exists req, resp. repeat split; try assumption.
  - intros (req & resp & -> & -> & Hs & -> & _).
    rewrite decide_False by (intros H; apply H, Hs). reflexivity.
Qed.

(** X7: against the test double every raw send fails with the empty
    string, whatever the message, the keys, the endpoint and the world;
    when the request could be made and signed, the error is the one of the
    400 answer with the double's body, and the body was closed. *)
Theorem mock_send_always_fails (w : Current.World)
    (endpoint region id secret : string) (raw : list byte) :
  let c := Current.mkConfig endpoint region id secret mockHTTPBadRequest in
  exists r e,
    Current.SendRawEmail w c raw = Done r
    /\ HTTP.result r = ("", Some e)
    /\ forall req,
         Current.sesPost_request w c (Current.SendRawEmail_params c raw) = inl req ->
         e = Err ("error code 400. response: " +:+ mock_body)
         /\ HTTP.trace r = [HTTP.Sent req; HTTP.ReadBody; HTTP.ClosedBody].
Proof.
  intros c. unfold Current.SendRawEmail, Current.sesPost.
  destruct (Current.sesPost_request w c (Current.SendRawEmail_params c raw))
    as [req|e].
  - eexists. eexists. split; [reflexivity|]. split; [reflexivity|].
    intros req' [= <-]. split; reflexivity.
  - eexists. eexists. split; [reflexivity|]. split; [reflexivity|].
    intros req' [=].
Qed.

(** ** The earlier revisions of the dispatcher *)

Lemma interim_sesPost_unfold w c data :
  Interim.sesPost w c data
  = match Interim.url_error w (Interim.Endpoint c) with
    | Some e => HTTP.mkRun ("", Some e) []
    | None =>
        match Interim.DefaultClient w (interim_signed w c data) with
        | inr e => HTTP.mkRun ("", Some e) [HTTP.Sent (interim_signed w c data)]
        | inl resp =>
            HTTP.mkRun (result_by_status resp)
              [HTTP.Sent (interim_signed w c data); HTTP.ReadBody; HTTP.ClosedBody]
        end
    end.
Proof.
  unfold Interim.sesPost, HTTP.NewRequest.
  destruct (Interim.url_error w (Interim.Endpoint c)); [reflexivity|].
  fold (interim_unsigned w c). fold (interim_signed w c data).
  destruct (Interim.DefaultClient w (interim_signed w c data)) as [resp|e];
    [|reflexivity].
  unfold result_by_status, HTTP.StatusOK, HTTP.ReadAll, status_error.
  repeat case_decide; try reflexivity; contradiction.
Qed.

(** X8: in the two earlier revisions, once the transport has answered,
    the result depends on the status and on the bytes read only, not on
    whether the read failed, and the body is closed on every such path: a
    200 answer whose read breaks off is returned as a success with the
    bytes read so far. *)
Theorem earlier_revisions_drop_read_error
    (w : Interim.World) (c : Interim.Config) (w' : Legacy.World)
    (endpoint id secret : string) (data : Values.t)
    (req' : HTTP.Request) (resp : HTTP.Response) :
  (Interim.url_error w (Interim.Endpoint c) = None ->
   Interim.DefaultClient w (interim_signed w c data) = inl resp ->
   Interim.sesPost w c data
   = HTTP.mkRun (result_by_status resp)
       [HTTP.Sent (interim_signed w c data); HTTP.ReadBody; HTTP.ClosedBody])
  /\ (Legacy.sesPost_request w' data endpoint id secret = inl req' ->
      Legacy.DefaultClient w' req' = inl resp ->
      Legacy.sesPost w' data endpoint id secret
      = HTTP.mkRun (result_by_status resp)
          [HTTP.Sent req'; HTTP.ReadBody; HTTP.ClosedBody]).
Proof.
  split.
  - intros Hurl Hdo. rewrite interim_sesPost_unfold, Hurl, Hdo. reflexivity.
  - intros Hreq Hdo. unfold Legacy.sesPost, Legacy.sesPost_dispatch.
    rewrite Hreq, Hdo.
    unfold result_by_status, HTTP.StatusOK, HTTP.ReadAll, status_error.
    repeat case_decide; try reflexivity; contradiction.
Qed.

Lemma earlier_revisions_drop_read_error_witness :
  HTTP.result
    (Interim.sesPost
       (interim_world example_world
          (example_config
             (answering 200 (HTTP.mkBody "<SendEmailRes" (Some (Err "unexpected EOF"))))))
       (interim_config (example_config mockHTTPBadRequest)) example_params)
  = ("<SendEmailRes", None)
  /\ HTTP.result
       (Legacy.sesPost
          (example_legacy_world 200
             (HTTP.mkBody "<SendEmailRes" (Some (Err "unexpected EOF"))))
          example_params "https://email.example" "AKID" "secret")
     = ("<SendEmailRes", None).
Proof.
  epose proof (earlier_revisions_drop_read_error
                 (interim_world example_world
                    (example_config
                       (answering 200
                          (HTTP.mkBody "<SendEmailRes" (Some (Err "unexpected EOF"))))))
                 (interim_config (example_config mockHTTPBadRequest))
                 (example_legacy_world 200
                    (HTTP.mkBody "<SendEmailRes" (Some (Err "unexpected EOF"))))
                 "https://email.example" "AKID" "secret" example_params _ _)
    as [H1 H2].
  split.
  - rewrite (H1 eq_refl eq_refl). reflexivity.
  - rewrite (H2 eq_refl eq_refl). reflexivity.
Defined.

(** X9: the two SigV4 revisions differ in two places only.  On the same
    world and configuration they make the same run whenever the signer
    reports no error and the body, if there is one, reads to its end.  When
    the signer reports an error, the later revision returns it and sends
    nothing, while the earlier one sends the request all the same.  When
    the read fails, the later revision returns the read error and leaves
    the body open, while the earlier one returns by status and closes it. *)
Theorem sigv4_revisions_compared (w : Current.World) (c : Current.Config)
    (data : Values.t) (req : HTTP.Request) (e : error) (resp : HTTP.Response) :
  Current.url_error w (Current.Endpoint c) = None ->
  (Current.sigv4 w c (unsigned_request w c) (URL.Encode data) (Current.now w)
   = (req, None) ->
   (forall resp', Current.HTTPClient c req = inl resp' ->
                  HTTP.read_error (HTTP.RespBody resp') = None) ->
   Current.sesPost w c data
   = Interim.sesPost (interim_world w c) (interim_config c) data)
  /\ (Current.sigv4 w c (unsigned_request w c) (URL.Encode data) (Current.now w)
      = (req, Some e) ->
      Current.sesPost w c data = HTTP.mkRun ("", Some e) []
      /\ sent_requests (Interim.sesPost (interim_world w c) (interim_config c) data)
         = [req])
  /\ (Current.sigv4 w c (unsigned_request w c) (URL.Encode data) (Current.now w)
      = (req, None) ->
      Current.HTTPClient c req = inl resp ->
      HTTP.read_error (HTTP.RespBody resp) = Some e ->
      Current.sesPost w c data
      = HTTP.mkRun ("", Some e) [HTTP.Sent req; HTTP.ReadBody]
      /\ Interim.sesPost (interim_world w c) (interim_config c) data
         = HTTP.mkRun (result_by_status resp)
             [HTTP.Sent req; HTTP.ReadBody; HTTP.ClosedBody]).
Proof.
  intros Hurl.
  assert (forall r, Current.sigv4 w c (unsigned_request w c) (URL.Encode data)
                      (Current.now w) = r ->
                    interim_signed (interim_world w c) (interim_config c) data = fst r)
    as Hsigned.
  { intros r <-. reflexivity. }
  rewrite interim_sesPost_unfold. simpl Interim.url_error. simpl Interim.Endpoint.
  rewrite Hurl. simpl Interim.DefaultClient.
  unfold Current.sesPost. rewrite current_sesPost_request, Hurl.
  unfold Current.sigv4 in *.
  split; [|split].
  - intros Hsign Hread. rewrite (Hsigned _ Hsign), Hsign. simpl fst.
    unfold Current.sesPost_dispatch.
    destruct (Current.HTTPClient c req) as [resp'|e'] eqn:Hdo; [|reflexivity].
    unfold HTTP.ReadAll. rewrite (Hread resp' eq_refl).
    unfold result_by_status, HTTP.StatusOK, status_error.
    repeat case_decide; try reflexivity; contradiction.
  - intros Hsign. rewrite (Hsigned _ Hsign), Hsign. simpl fst.
    split; [reflexivity|].
    destruct (Current.HTTPClient c req); reflexivity.
  - intros Hsign Hdo Hread. rewrite (Hsigned _ Hsign), Hsign. simpl fst.
    unfold Current.sesPost_dispatch.
    rewrite Hdo. unfold HTTP.ReadAll. rewrite Hread. split; reflexivity.
Qed.

Lemma sigv4_revisions_compared_witness :
  Current.sesPost example_world (example_config mockHTTPBadRequest) example_params
  = Interim.sesPost (interim_world example_world (example_config mockHTTPBadRequest))
      (interim_config (example_config mockHTTPBadRequest)) example_params.
Proof.
  refine (proj1 (sigv4_revisions_compared example_world
                   (example_config mockHTTPBadRequest) example_params _
                   (Err "none") (HTTP.mkResponse 200 (HTTP.mkBody "" None)) eq_refl)
            eq_refl _).
  intros resp' [= <-]. reflexivity.
Defined.

(** ** [sesGet] *)

(** X10: [sesGet] hands exactly one request to the transport on every
    run, also when the URL does not parse: the request then has a nil URL.
    The request is a [GET] that closes the connection, carries the encoded
    parameters in the query string of the URL and has two headers, [Date]
    and [X-Amzn-Authorization]; the latter is what [authorizationHeader]
    computes for that date and what [sesPost] sets on its own request. *)
Theorem sesGet_always_sends_one_signed_get (w : Legacy.GetWorld) (data : Values.t)
    (endpoint id secret : string) :
  let date := Legacy.Format (Legacy.base w) date_layout (Legacy.now (Legacy.base w)) in
  let urlString := endpoint +:+ "?" +:+ URL.Encode data in
  exists req,
    sent_gets (Legacy.sesGet w data endpoint id secret) = [req]
    /\ Legacy.GMethod req = "GET"
    /\ Legacy.GClose req = true
    /\ Legacy.GURL req
       = match Legacy.url_error (Legacy.base w) urlString with
         | Some _ => None
         | None => Some urlString
         end
    /\ dom (Legacy.GHeader req) = {["Date"; "X-Amzn-Authorization"]}
    /\ Legacy.GHeader req !! "Date" = Some [date]
    /\ Legacy.GHeader req !! "X-Amzn-Authorization"
       = Some (Legacy.authorizationHeader (Legacy.base w) date id secret)
    /\ forall req',
         Legacy.sesPost_request (Legacy.base w) data endpoint id secret = inl req' ->
         HTTP.Hdr req' !! "X-Amzn-Authorization"
         = Legacy.GHeader req !! "X-Amzn-Authorization"
         /\ HTTP.Hdr req' !! "Date" = Legacy.GHeader req !! "Date".
Proof.
  intros date urlString. eexists. unfold Legacy.sesGet. split.
  - fold date. fold urlString.
    destruct (Legacy.DefaultClientGet w _) as [r|e]; [|reflexivity].
    case_decide; reflexivity.
  - split; [reflexivity|]. split; [reflexivity|]. split; [reflexivity|].
    split.
    { simpl. rewrite !dom_insert_L, dom_empty_L. set_solver. }
    split; [reflexivity|]. split; [reflexivity|].
    intros req'. rewrite legacy_sesPost_request.
    destruct (Legacy.url_error (Legacy.base w) endpoint); [discriminate|].
    intros [= <-]. split; reflexivity.
Qed.

(** X11: [sesGet] returns by the status of the answer and the bytes read,
    dropping the error of the read, and closes the body whenever the
    transport answered; a transport error is returned unchanged; an error
    always comes with the empty string. *)
Theorem sesGet_result (w : Legacy.GetWorld) (data : Values.t)
    (endpoint id secret : string) :
  exists req,
    sent_gets (Legacy.sesGet w data endpoint id secret) = [req]
    /\ Legacy.sesGet w data endpoint id secret
       = match Legacy.DefaultClientGet w req with
         | inr e => Legacy.mkGetRun ("", Some e) [Legacy.SentGet req]
         | inl resp =>
             Legacy.mkGetRun (result_by_status resp)
               [Legacy.SentGet req; Legacy.ReadBodyGet; Legacy.ClosedBodyGet]
         end
    /\ forall e,
         snd (Legacy.get_result (Legacy.sesGet w data endpoint id secret)) = Some e ->
         fst (Legacy.get_result (Legacy.sesGet w data endpoint id secret)) = "".
Proof.
  eexists. unfold Legacy.sesGet.
  match goal with
  | |- context [Legacy.DefaultClientGet w ?q] =>
      destruct (Legacy.DefaultClientGet w q) as [resp|e0] eqn:Hdo
  end.
  - unfold result_by_status, HTTP.StatusOK, HTTP.ReadAll, status_error.
    split; [|split].
    + case_decide; reflexivity.
    + rewrite Hdo. repeat case_decide; try reflexivity; contradiction.
    + intros e. case_decide; [reflexivity | discriminate].
  - split; [reflexivity|]. split; [rewrite Hdo|]; reflexivity.
Qed.

(** A run of [sesGet] on a URL that does not parse still reaches the
    transport. *)
Example sesGet_nil_url :
  exists req,
    Legacy.sesGet (example_get_world 200 (HTTP.mkBody "ok" None)) example_params
      "://bad" "AKID" "secret"
    = Legacy.mkGetRun ("ok", None)
        [Legacy.SentGet req; Legacy.ReadBodyGet; Legacy.ClosedBodyGet]
    /\ Legacy.GURL req = None.
Proof. eexists. split; reflexivity. Qed.

(** ** Escaping and unescaping *)

Lemma escape_ok_all (c : ascii) : escape_ok c = true.
Proof. destruct c as [[] [] [] [] [] [] [] []]; vm_compute; reflexivity. Qed.

Lemma escape_byte_separator_free (c : ascii) :
  separator_free (URL.escape_byte c) = true.
Proof. destruct c as [[] [] [] [] [] [] [] []]; vm_compute; reflexivity. Qed.

Lemma QueryUnescape_escape_byte (c : ascii) (rest t : string) :
  URL.QueryUnescape rest = inl t ->
  URL.QueryUnescape (URL.escape_byte c +:+ rest) = inl (String c t).
Proof.
  intros Hrest. pose proof (escape_ok_all c) as Hok. unfold escape_ok in Hok.
  destruct (URL.escape_byte c) as [|a [|h [|l [|]]]]; try discriminate.
  - apply andb_prop in Hok as [Ha Hc]. apply negb_true_iff in Ha.
    apply Ascii.eqb_eq in Hc.
    change (String a "" +:+ rest) with (String a rest). simpl.
    rewrite Ha, Hrest, Hc. reflexivity.
  - apply andb_prop in Hok as [Hok Hc]. apply andb_prop in Hok as [Hok Hl].
    apply andb_prop in Hok as [Ha Hh]. apply Ascii.eqb_eq in Hc.
    change (String a (String h (String l "")) +:+ rest)
      with (String a (String h (String l rest))).
    cbn [URL.QueryUnescape]. rewrite Ha, Hh, Hl, Hrest, Hc. reflexivity.
Qed.

Lemma QueryUnescape_QueryEscape (s : string) :
  URL.QueryUnescape (URL.QueryEscape s) = inl s.
Proof.
  induction s as [|c s IH]; [reflexivity|].
  cbn [URL.QueryEscape]. apply QueryUnescape_escape_byte, IH.
Qed.

Lemma Contains_app sep a b :
  URL.Contains sep (a +:+ b) = (URL.Contains sep a || URL.Contains sep b)%bool.
Proof.
  induction a as [|c a IH]; [reflexivity|].
  change (String c a +:+ b) with (String c (a +:+ b)). simpl.
  rewrite IH. apply orb_assoc.
Qed.

Lemma separator_free_app a b :
  separator_free (a +:+ b) = (separator_free a && separator_free b)%bool.
Proof.
  unfold separator_free. rewrite !Contains_app.
  destruct (URL.Contains "&" a), (URL.Contains "=" a), (URL.Contains ";" a),
    (URL.Contains "&" b), (URL.Contains "=" b), (URL.Contains ";" b); reflexivity.
Qed.

Lemma QueryEscape_separator_free (s : string) :
  separator_free (URL.QueryEscape s) = true.
Proof.
  induction s as [|c s IH]; [reflexivity|].
  cbn [URL.QueryEscape]. rewrite separator_free_app, escape_byte_separator_free, IH.
  reflexivity.
Qed.

Lemma separator_free_parts s :
  separator_free s = true ->
  URL.Contains "&" s = false /\ URL.Contains "=" s = false
  /\ URL.Contains ";" s = false.
Proof.
  unfold separator_free.
  destruct (URL.Contains "&" s), (URL.Contains "=" s), (URL.Contains ";" s);
    simpl; intros H; try discriminate; auto.
Qed.

(** ** Cutting at a separator *)

Lemma Cut_found sep a b :
  URL.Contains sep a = false -> URL.Cut sep (a +:+ String sep b) = (a, b, true).
Proof.
  induction a as [|c a IH]; intros Ha.
  - change ("" +:+ String sep b) with (String sep b). simpl.
    rewrite Ascii.eqb_refl. reflexivity.
  - change (String c a +:+ String sep b) with (String c (a +:+ String sep b)).
    simpl in *. apply orb_false_elim in Ha as [Hc Ha].
    rewrite Hc, (IH Ha). reflexivity.
Qed.


(** What is left after a cut is shorter than what was cut. *)
Lemma Cut_shorter sep s :
  s <> "" -> String.length (URL.Cut sep s).1.2 < String.length s.
Proof.
  induction s as [|c s IH]; intros Hs; [contradiction|].
  simpl. destruct (Ascii.eqb c sep); simpl; [lia|].
  destruct s as [|c' s'].
  - simpl. lia.
  - specialize (IH ltac:(discriminate)).
    destruct (URL.Cut sep (String c' s')) as [[b a] f]. simpl in *. lia.
Qed.

(** ** [ParseQuery] completes *)

Lemma parseQuery_enough_fuel fuel m err query :
  String.length query <= fuel -> is_Some (URL.parseQuery fuel m err query).
Proof.
  revert m err query. induction fuel as [|fuel IH]; intros m err query Hlen.
  - destruct query; [|simpl in Hlen; lia]. by eexists.
  - cbn [URL.parseQuery]. case_decide as Hq; [by eexists|].
    pose proof (Cut_shorter "&" query Hq) as Hcut.
    destruct (URL.Cut "&" query) as [[key rest] found]. simpl in Hcut.
    assert (String.length rest <= fuel) as Hrest by lia.
    destruct (URL.Contains ";" key); [by apply IH|].
    case_decide; [by apply IH|].
    destruct (URL.Cut "=" key) as [[k v] f].
    destruct (URL.QueryUnescape k); [|by apply IH].
    destruct (URL.QueryUnescape v); by apply IH.
Qed.

(** X12: [ParseQuery] is defined on every query: the bound on the rounds
    of its loop, the length of the query, is never reached. *)
Theorem ParseQuery_total (query : string) :
  exists m err, URL.ParseQuery query = Some (m, err).
Proof.
  destruct (parseQuery_enough_fuel (String.length query) Values.make None query)
    as [[m err] H]; [lia|].
  exists m, err. exact H.
Qed.

(** ** The encoded body is the pairs joined with [&] *)

Lemma pair_string_not_empty p : pair_string p <> "".
Proof.
  unfold pair_string. destruct (URL.QueryEscape p.1); discriminate.
Qed.

Lemma string_app_not_empty a b : a <> "" -> a +:+ b <> "".
Proof. destruct a; [contradiction | discriminate]. Qed.

Lemma string_app_assoc (a b c : string) : (a +:+ b) +:+ c = a +:+ (b +:+ c).
Proof.
  induction a as [|x a IH]; [reflexivity|].
  change ((String x a +:+ b) +:+ c) with (String x ((a +:+ b) +:+ c)).
  rewrite IH. reflexivity.
Qed.

Lemma string_app_empty_r (a : string) : a +:+ "" = a.
Proof.
  induction a as [|x a IH]; [reflexivity|].
  change (String x a +:+ "") with (String x (a +:+ "")). by rewrite IH.
Qed.

Lemma string_length_app (a b : string) :
  String.length (a +:+ b) = String.length a + String.length b.
Proof.
  induction a as [|x a IH]; [reflexivity|].
  change (String x a +:+ b) with (String x (a +:+ b)). simpl. by rewrite IH.
Qed.

Lemma write1_not_empty buf p : write1 buf p <> "".
Proof.
  unfold write1, URL.write_pair. case_decide as Hb.
  - destruct buf; [|discriminate]. apply pair_string_not_empty.
  - apply string_app_not_empty, string_app_not_empty.
    intros ->. apply Hb. reflexivity.
Qed.

Lemma write1_from_empty p : write1 "" p = pair_string p.
Proof. reflexivity. Qed.

Lemma write1_from_buf buf p :
  buf <> "" -> write1 buf p = buf +:+ "&" +:+ pair_string p.
Proof.
  intros Hb. unfold write1, URL.write_pair, pair_string.
  rewrite decide_False.
  - rewrite !string_app_assoc. reflexivity.
  - destruct buf; [contradiction | discriminate].
Qed.

Lemma foldl_write1_from_buf buf ps :
  buf <> "" ->
  foldl write1 buf ps
  = buf +:+ match ps with [] => "" | _ => "&" +:+ join_amp (pair_string <$> ps) end.
Proof.
  revert buf. induction ps as [|p ps IH]; intros buf Hb; simpl.
  - by rewrite string_app_empty_r.
  - rewrite IH by apply write1_not_empty.
    rewrite write1_from_buf by exact Hb.
    destruct ps as [|q ps]; simpl.
    + apply string_app_empty_r.
    + rewrite !string_app_assoc. reflexivity.
Qed.

Lemma foldl_write1 ps : foldl write1 "" ps = join_amp (pair_string <$> ps).
Proof.
  destruct ps as [|p ps]; [reflexivity|]. simpl.
  rewrite write1_from_empty, foldl_write1_from_buf by apply pair_string_not_empty.
  destruct ps; [apply string_app_empty_r | reflexivity].
Qed.

Lemma foldl_write_key v buf ks :
  foldl (URL.write_key v) buf ks = foldl write1 buf (pairs v ks).
Proof.
  revert buf. induction ks as [|k ks IH]; intros buf; [reflexivity|].
  unfold pairs. simpl. rewrite foldl_app. rewrite <- IH. f_equal.
  unfold URL.write_key. generalize (default [] (v !! k)). clear.
  intros xs. revert buf. induction xs as [|x xs IHx]; intros buf; [reflexivity|].
  simpl. rewrite IHx. reflexivity.
Qed.

Lemma EncodeFrom_join (ks : list string) (v : Values.t) :
  URL.EncodeFrom ks v
  = join_amp (pair_string <$> pairs v (merge_sort String.le ks)).
Proof.
  unfold URL.EncodeFrom. rewrite foldl_write_key. apply foldl_write1.
Qed.

(** ** Parsing the encoded body *)









Lemma elem_of_keys (v : Values.t) k :
  k ∈ (map_to_list v).*1 <-> is_Some (v !! k).
Proof.
  rewrite list_elem_of_fmap. split.
  - intros [[k0 xs] [-> Hin]]. apply elem_of_map_to_list in Hin. by eexists.
  - intros [xs Hxs]. exists (k, xs). split; [reflexivity|].
    by apply elem_of_map_to_list.
Qed.



(** X13: [QueryUnescape] undoes [QueryEscape] on every string, and what
    [QueryEscape] writes never holds one of the bytes [&], [=] and [;]
    that structure a query. *)
Theorem QueryEscape_round_trip (s : string) :
  URL.QueryUnescape (URL.QueryEscape s) = inl s
  /\ URL.Contains "&" (URL.QueryEscape s) = false
  /\ URL.Contains "=" (URL.QueryEscape s) = false
  /\ URL.Contains ";" (URL.QueryEscape s) = false.
Proof.
  split; [apply QueryUnescape_QueryEscape|].
  apply separator_free_parts, QueryEscape_separator_free.
Qed.



(** ** What the server reads *)









(** ** The shape of the encoded body *)

(** X17: the encoded body is the list of [key=value] pairs, both sides
    escaped, joined with [&]: the keys in ascending order of their bytes,
    the values of a key in the order they were added; the empty map encodes
    to the empty string. *)
Theorem Encode_is_sorted_join (v : Values.t) :
  exists keys,
    URL.Encode v = join_amp (pair_string <$> pairs v keys)
    /\ Sorted String.le keys
    /\ NoDup keys
    /\ (forall k, k ∈ keys <-> is_Some (v !! k))
    /\ URL.Encode Values.make = "".
Proof.
  exists (merge_sort String.le (map_to_list v).*1).
  split; [apply EncodeFrom_join|].
  split; [apply Sorted_merge_sort; apply _|].
  split; [rewrite merge_sort_Permutation; apply NoDup_fst_map_to_list|].
  split; [|reflexivity].
  intros k. rewrite merge_sort_Permutation. apply elem_of_keys.
Qed.

(** ** The error of a status *)

Lemma pretty_N_go_no_dot x s :
  URL.Contains "." s = false -> URL.Contains "." (pretty_N_go x s) = false.
Proof.
  revert s. induction (N.lt_wf_0 x) as [x _ IH]; intros s Hs.
  assert (x = 0 \/ 0 < x)%N as [->|Hx] by lia.
  - by rewrite pretty_N_go_0.
  - rewrite pretty_N_go_step by done. apply IH.
    { by apply N.div_lt. }
    simpl. rewrite Hs. unfold pretty_N_char. by repeat case_match.
Qed.

Lemma pretty_Z_no_dot (z : Z) : URL.Contains "." (pretty z) = false.
Proof.
  assert (forall p : positive, URL.Contains "." (pretty p) = false) as Hpos.
  { intros p. unfold pretty, pretty_positive, pretty, pretty_N.
    case_decide; [reflexivity|]. by apply pretty_N_go_no_dot. }
  destruct z as [|p|p]; [reflexivity | apply Hpos |].
  unfold pretty, pretty_Z. rewrite Contains_app, Hpos. reflexivity.
Qed.

Lemma cut_unique sep a1 a2 b1 b2 :
  URL.Contains sep a1 = false -> URL.Contains sep a2 = false ->
  a1 +:+ String sep b1 = a2 +:+ String sep b2 -> a1 = a2 /\ b1 = b2.
Proof.
  intros H1 H2 Heq. apply (f_equal (URL.Cut sep)) in Heq.
  rewrite !Cut_found in Heq by assumption. by injection Heq.
Qed.

(** X18: the error of a status other than 200 tells status and body
    apart: two answers give the same error only if they have the same
    status and the same body. *)
Theorem status_error_injective (s1 s2 : Z) (b1 b2 : string) :
  status_error s1 b1 = status_error s2 b2 <-> s1 = s2 /\ b1 = b2.
Proof.
  split; [|by intros [-> ->]].
  unfold status_error. intros [= Heq].
  apply (inj (String.app _)) in Heq.
  change (". response: " +:+ b1) with (String "." (" response: " +:+ b1)) in Heq.
  change (". response: " +:+ b2) with (String "." (" response: " +:+ b2)) in Heq.
  apply cut_unique in Heq as [Hs Hb]; try apply pretty_Z_no_dot.
  split; [by apply (inj pretty) | by apply (inj (String.app _)) in Hb].
Qed.

(** ** The base64 text *)

Lemma encode_char_in_alphabet (i : N) :
  (i < 64)%N -> Base64.encode_char i ∈ Base64.encodeStd.
Proof.
  intros Hi. unfold Base64.encode_char.
  destruct (lookup_lt_is_Some_2 Base64.encodeStd (N.to_nat i)) as [ch Hch].
  { change (length Base64.encodeStd) with 64. lia. }
  rewrite Hch. simpl. by eapply list_elem_of_lookup_2.
Qed.

Lemma sextet_in_alphabet val sh : Base64.sextet val sh ∈ Base64.encodeStd.
Proof. apply encode_char_in_alphabet, six_lt. Qed.

(** X19: the base64 text of [n] bytes has [4 * ceil(n / 3)] characters,
    each one a character of the standard alphabet or the padding
    character, and different messages have different texts. *)
Theorem EncodeToString_shape (raw raw' : list byte) :
  String.length (Base64.EncodeToString raw) = 4 * ((length raw + 2) / 3)
  /\ Forall (fun ch => ch ∈ Base64.encodeStd \/ ch = Base64.padChar)
            (list_ascii_of_string (Base64.EncodeToString raw))
  /\ (Base64.EncodeToString raw = Base64.EncodeToString raw' <-> raw = raw').
Proof.
  split; [apply EncodeToString_length|]. split.
  - remember (length raw) as n eqn:Hn. revert raw Hn.
    induction n as [n IH] using lt_wf_ind.
    intros [|b0 [|b1 [|b2 rest]]] ->;
      cbn [Base64.EncodeToString list_ascii_of_string].
    + constructor.
    + repeat (constructor; [first [left; apply sextet_in_alphabet | by right]|]).
      constructor.
    + repeat (constructor; [first [left; apply sextet_in_alphabet | by right]|]).
      constructor.
    + repeat (constructor; [left; apply sextet_in_alphabet|]).
      apply (IH (length rest)); [simpl; lia | reflexivity].
  - split; [|by intros ->]. intros Heq.
    apply (f_equal Base64.DecodeString) in Heq.
    rewrite !DecodeString_EncodeToString in Heq. by injection Heq.
Qed.

(** ** Order of the events *)

(** X20: in every revision a run of [sesPost] sends at most once, reads
    only the body of an answer to what it sent, and closes only a body it
    has read: its events are a prefix of send, read, close.  The two
    earlier revisions never stop between read and close; and the first
    SigV4 revision, like the other two, pairs every error with the empty
    string. *)
Theorem dispatcher_event_order (w : Current.World) (c : Current.Config)
    (w1 : Interim.World) (c1 : Interim.Config) (w2 : Legacy.World)
    (endpoint id secret : string) (data : Values.t) :
  (exists req,
      HTTP.trace (Current.sesPost w c data)
      `prefix_of` [HTTP.Sent req; HTTP.ReadBody; HTTP.ClosedBody])
  /\ (exists req,
      HTTP.trace (Interim.sesPost w1 c1 data)
      ∈ [[]; [HTTP.Sent req]; [HTTP.Sent req; HTTP.ReadBody; HTTP.ClosedBody]])
  /\ (exists req,
      HTTP.trace (Legacy.sesPost w2 data endpoint id secret)
      ∈ [[]; [HTTP.Sent req]; [HTTP.Sent req; HTTP.ReadBody; HTTP.ClosedBody]])
  /\ (forall e, snd (HTTP.result (Interim.sesPost w1 c1 data)) = Some e ->
                fst (HTTP.result (Interim.sesPost w1 c1 data)) = "").
Proof.
  split; [|split; [|split]].
  - unfold Current.sesPost, Current.sesPost_dispatch.
    destruct (Current.sesPost_request w c data) as [req|e].
    + exists req. destruct (Current.HTTPClient c req) as [resp|e].
      * destruct (HTTP.ReadAll (HTTP.RespBody resp)) as [b [e|]].
        -- by exists [HTTP.ClosedBody].
        -- case_decide; by exists [].
      * by exists [HTTP.ReadBody; HTTP.ClosedBody].
    + exists (unsigned_request w c). by eexists.
  - rewrite interim_sesPost_unfold. exists (interim_signed w1 c1 data).
    destruct (Interim.url_error w1 (Interim.Endpoint c1)); [set_solver|].
    destruct (Interim.DefaultClient w1 _); set_solver.
  - unfold Legacy.sesPost, Legacy.sesPost_dispatch.
    destruct (Legacy.sesPost_request w2 data endpoint id secret) as [req|e].
    + exists req. destruct (Legacy.DefaultClient w2 req) as [resp|e]; [|set_solver].
      case_decide; set_solver.
    + exists (HTTP.mkRequest "POST" endpoint ∅ None). set_solver.
  - intros e. rewrite interim_sesPost_unfold.
    destruct (Interim.url_error w1 (Interim.Endpoint c1)); [reflexivity|].
    destruct (Interim.DefaultClient w1 _) as [resp|e0]; [|reflexivity].
    unfold result_by_status. case_decide; [discriminate|reflexivity].
Qed.
